(** * AIMS client: relationship topology traversal and user aggregation

    A shallow embedding of the traversal and aggregation methods of
    [AIMSClientInstance] (the AIMS public API client):

    - [getAccountRelationshipTopology] and [getAccountsIdsByRelationship]
      with its local recursive helper [getIds];
    - the deprecated [getUsersFromManagedRelationship];
    - [getUsersFromAccounts].

    Values decoded from a response are modelled as the code sees them:
    a field that the code reads and that may be missing is an [option];
    promises are their three states; exceptions are values of [error]. *)

From Stdlib Require Import ZArith Ascii String List Arith Lia.
From stdpp Require Import base option list strings gmap.

Set Warnings "-register-all".

Open Scope string_scope.
Open Scope list_scope.

(** ** Errors, completions and promises *)

(** What a [throw] or a rejected promise carries.  [ClientError] stands for
    whatever the [AlApiClient] collaborator rejects with on its own;
    [AlResponseValidationError] is the class of "../common/errors";
    [TypeError] and [RangeError] are the engine's own. *)
Inductive error : Type :=
| ClientError (reason : string)
| AlResponseValidationError (message : string)
| TypeError (message : string)
| RangeError (message : string).

Definition is_validation_error (e : error) : bool :=
  match e with AlResponseValidationError _ => true | _ => false end.

(** A synchronous evaluation either returns or throws. *)
Inductive completion (A : Type) : Type :=
| Return (value : A)
| Throw (reason : error).
Arguments Return {A} value.
Arguments Throw {A} reason.

(** A promise is fulfilled, rejected, or never settles. *)
Inductive promise (A : Type) : Type :=
| Resolved (value : A)
| Rejected (reason : error)
| Pending.
Arguments Resolved {A} value.
Arguments Rejected {A} reason.
Arguments Pending {A}.

(** What follows a promise once it is fulfilled. *)
Definition promise_bind {A B : Type} (p : promise A) (k : A -> promise B) : promise B :=
  match p with
  | Resolved v => k v
  | Rejected e => Rejected e
  | Pending => Pending
  end.

(** What follows an evaluation once it has returned. *)
Definition try_ {A B : Type} (c : completion A) (k : A -> completion B) : completion B :=
  match c with
  | Return v => k v
  | Throw e => Throw e
  end.

Notation "x <-- c ; k" := (try_ c (fun x => k))
  (at level 20, c at level 100, k at level 200, only parsing).

(** ** Data model *)

(** The relationship axis of the topology endpoints:
    ['managed' | 'managing']. *)
Inductive Relationship : Type := managed | managing.

Definition relationship_name (relationship : Relationship) : string :=
  match relationship with
  | managed => "managed"
  | managing => "managing"
  end.

(** Modelled from the spec: the declaration of [AIMSTopology] lives in
    './types'.  A topology node has an account [id] and, per axis, the
    array of directly related nodes.  The code itself tests
    [Array.isArray(a[relationship])], so an axis is [None] when it is not
    an array (the field is absent from the decoded body). *)
Inductive AIMSTopology : Type :=
| Topology (id : string) (managed_ managing_ : option (list AIMSTopology)).

Definition topology_id (a : AIMSTopology) : string :=
  match a with Topology id _ _ => id end.

(** [a[relationship]] *)
Definition topology_axis (relationship : Relationship) (a : AIMSTopology)
  : option (list AIMSTopology) :=
  match a with
  | Topology _ md mg =>
      match relationship with managed => md | managing => mg end
  end.

(** Modelled from the spec: the declaration of [AIMSAccount] lives in
    './types'; the code reads only its [id]. *)
Record AIMSAccount : Type := { AIMSAccount_id : string }.

(** Modelled from the spec: the declaration of [AIMSUser] lives in
    './types'; a user record is opaque beyond an identifier. *)
Record AIMSUser : Type := { AIMSUser_id : string }.

(** ** [getIds] on decoded topologies *)

(** [a => [a.id, ...getIds(Array.isArray(a[relationship]) ? a[relationship] : [])]] *)
Fixpoint getIds_callback (relationship : Relationship) (a : AIMSTopology)
  : list string :=
  match a with
  | Topology id md mg =>
      id :: match (match relationship with managed => md | managing => mg end) with
            | Some children => flat_map (getIds_callback relationship) children
            | None => []
            end
  end.

(** [function getIds(accounts) { return accounts.flatMap(a => ...); }]
    on a decoded (finite, tree-shaped) value, with no bound on the stack. *)
Definition getIds (relationship : Relationship) (accounts : list AIMSTopology)
  : list string :=
  flat_map (getIds_callback relationship) accounts.

(** [Array.isArray(a[relationship]) ? a[relationship] : []] *)
Definition children_of (relationship : Relationship) (a : AIMSTopology)
  : list AIMSTopology :=
  match topology_axis relationship a with
  | Some children => children
  | None => []
  end.

(** *** The reference traversal

    Pre-order flattening as the design states it: for each node of the input
    sequence, in the given order, the node's own id, then the flattened ids
    of that node's children along the same axis, then the next sibling. *)
Inductive Preorder (relationship : Relationship)
  : list AIMSTopology -> list string -> Prop :=
| Preorder_done : Preorder relationship [] []
| Preorder_node a siblings below after :
    Preorder relationship (children_of relationship a) below ->
    Preorder relationship siblings after ->
    Preorder relationship (a :: siblings) (topology_id a :: below ++ after).

(** Number of nodes of a topology, and its height along one axis. *)
Fixpoint topology_size (a : AIMSTopology) : nat :=
  match a with
  | Topology _ md mg =>
      S (match md with Some l => list_sum (map topology_size l) | None => 0 end
         + match mg with Some l => list_sum (map topology_size l) | None => 0 end)
  end.

Definition forest_size (accounts : list AIMSTopology) : nat :=
  list_sum (map topology_size accounts).

Fixpoint topology_height (relationship : Relationship) (a : AIMSTopology) : nat :=
  match a with
  | Topology _ md mg =>
      S match (match relationship with managed => md | managing => mg end) with
        | Some children => list_max (map (topology_height relationship) children)
        | None => 0
        end
  end.

Definition forest_height (relationship : Relationship) (accounts : list AIMSTopology)
  : nat :=
  list_max (map (topology_height relationship) accounts).

(** How many positions of a topology, along [relationship], carry the id
    [x]. *)
Fixpoint occurrences (relationship : Relationship) (x : string) (a : AIMSTopology)
  : nat :=
  match a with
  | Topology id md mg =>
      (if String.eqb id x then 1 else 0)
      + match (match relationship with managed => md | managing => mg end) with
        | Some children => list_sum (map (occurrences relationship x) children)
        | None => 0
        end
  end.

(** ** [getIds] on an object graph

    In the engine a topology is a graph of objects held by reference, and
    nothing in [getIds] prevents an array from holding the object it belongs
    to.  Objects live in a store indexed by reference; every activation of
    [getIds] takes one frame of a stack of [stack] frames, and the engine
    throws a [RangeError] when none is left. *)
Record object : Type := {
  object_id : string;
  object_managed : option (list nat);
  object_managing : option (list nat)
}.

(** [o[relationship]] *)
Definition object_axis (relationship : Relationship) (o : object)
  : option (list nat) :=
  match relationship with
  | managed => object_managed o
  | managing => object_managing o
  end.

(** [Array.isArray(o[relationship]) ? o[relationship] : []] *)
Definition object_children (relationship : Relationship) (o : object) : list nat :=
  match object_axis relationship o with
  | Some children => children
  | None => []
  end.

(** [Array.prototype.flatMap] with a callback that may throw: the first
    throw ends the iteration. *)
Fixpoint flatMap {A B : Type} (callback : A -> completion (list B)) (array : list A)
  : completion (list B) :=
  match array with
  | [] => Return []
  | a :: rest =>
      mapped <-- callback a ;
      others <-- flatMap callback rest ;
      Return (mapped ++ others)
  end.

Definition stack_overflow : error := RangeError "Maximum call stack size exceeded".

Fixpoint getIds_graph (stack : nat) (store : gmap nat object)
  (relationship : Relationship) (accounts : list nat) : completion (list string) :=
  match stack with
  | 0 => Throw stack_overflow
  | S stack' =>
      flatMap
        (fun a =>
           match store !! a with
           | None => Throw (TypeError "Cannot read properties of undefined (reading 'id')")
           | Some o =>
               ids <-- getIds_graph stack' store relationship
                         (object_children relationship o) ;
               Return (object_id o :: ids)
           end)
        accounts
  end.

(** The objects reachable from reference [r] along [relationship] form the
    finite tree [a]. *)
Inductive represents (store : gmap nat object) (relationship : Relationship)
  : nat -> AIMSTopology -> Prop :=
| represents_node r o a :
    store !! r = Some o ->
    object_id o = topology_id a ->
    Forall2 (represents store relationship)
      (object_children relationship o) (children_of relationship a) ->
    represents store relationship r a.

(** ** The collaborator and the client instance *)

Definition queryParams : Type := list (string * bool).

(** The request descriptor handed to [this.client.get]. *)
Record request : Type := {
  service_name : string;
  account_id : string;
  path : string;
  params : option queryParams;
  retry_count : option nat;
  ttl : option nat
}.

(** A decoded response body, seen through the three fields the methods
    below read; a field is [None] when the body does not have it. *)
Record response : Type := {
  users : option (list AIMSUser);
  accounts : option (list AIMSAccount);
  topology : option AIMSTopology
}.

(** Modelled from the spec: [AlApiClient] is declared in "../client".  The
    methods here use its [get] only: one request, one promise of a decoded
    body. *)
Record AlApiClient : Type := { get : request -> promise response }.

Record AIMSClientInstance : Type := {
  client : AlApiClient;
  serviceName : string
}.

(** [constructor( client )] with [serviceName = 'aims']. *)
Definition new_AIMSClientInstance (c : AlApiClient) : AIMSClientInstance :=
  {| client := c; serviceName := "aims" |}.

(** ** Async functions with a log

    An async function is run to its promise; on the way it logs the
    requests it issues and, for the deprecated walker, each activation with
    the parameter values it received and each error its [catch] block
    swallowed. *)
Inductive event : Type :=
| Requested (req : request)
| Entered (leafAccountId : string) (terminalAccountId : option string)
    (failOnError : bool)
| Swallowed (leafAccountId : string) (reason : error).

Definition async (A : Type) : Type := (list event * promise A)%type.

Definition trace {A : Type} (m : async A) : list event := fst m.
Definition outcome {A : Type} (m : async A) : promise A := snd m.

Definition resolve {A : Type} (v : A) : async A := ([], Resolved v).
Definition reject {A : Type} (e : error) : async A := ([], Rejected e).
Definition never {A : Type} : async A := ([], Pending).
Definition log (ev : event) : async unit := ([ev], Resolved tt).

(** [await m] followed by the rest of the body. *)
Definition await {A B : Type} (m : async A) (k : A -> async B) : async B :=
  match outcome m with
  | Resolved v => (trace m ++ trace (k v), outcome (k v))
  | Rejected e => (trace m, Rejected e)
  | Pending => (trace m, Pending)
  end.

(** [try { body } catch( e ) { handler }] around awaited code. *)
Definition try_catch {A : Type} (body : async A) (handler : error -> async A)
  : async A :=
  match outcome body with
  | Rejected e => (trace body ++ trace (handler e), outcome (handler e))
  | _ => body
  end.

Notation "x <~ m ; k" := (await m (fun x => k))
  (at level 20, m at level 100, k at level 200, only parsing).

(** [this.client.get( req )] *)
Definition client_get (this : AIMSClientInstance) (req : request) : async response :=
  ([Requested req], get (client this) req).

(** ** The methods *)

(** The request descriptor of [getUsers]. *)
Definition users_request (this : AIMSClientInstance) (accountId : string)
  (queryParams : option queryParams) : request :=
  {| service_name := serviceName this;
     account_id := accountId;
     path := "/users";
     params := queryParams;
     retry_count := None;
     ttl := None |}.

Definition getUsers (this : AIMSClientInstance) (accountId : string)
  (queryParams : option queryParams) : async (option (list AIMSUser)) :=
  users_ <~ client_get this (users_request this accountId queryParams) ;
  resolve (users users_).

(** The request descriptor of [getAccountsByRelationship]. *)
Definition accounts_request (this : AIMSClientInstance) (accountId : string)
  (relationship : string) (queryParams : option queryParams) : request :=
  {| service_name := serviceName this;
     account_id := accountId;
     path := "/accounts/" ++ relationship;
     params := queryParams;
     retry_count := Some 5;
     ttl := Some (2 * 60 * 1000) |}.

Definition getAccountsByRelationship (this : AIMSClientInstance) (accountId : string)
  (relationship : string) (queryParams : option queryParams)
  : async (option (list AIMSAccount)) :=
  managedAccounts <~ client_get this (accounts_request this accountId relationship queryParams) ;
  resolve (accounts managedAccounts).

(** The request descriptor of [getAccountRelationshipTopology]. *)
Definition topology_request (this : AIMSClientInstance) (accountId : string)
  (relationship : Relationship) (queryParams : option queryParams) : request :=
  {| service_name := serviceName this;
     account_id := accountId;
     path := "/accounts/" ++ relationship_name relationship ++ "/topology";
     params := queryParams;
     retry_count := None;
     ttl := None |}.

Definition getAccountRelationshipTopology (this : AIMSClientInstance)
  (accountId : string) (relationship : Relationship)
  (queryParams : option queryParams) : async (option AIMSTopology) :=
  response_ <~ client_get this (topology_request this accountId relationship queryParams) ;
  resolve (topology response_).

(** [addCurrentId: boolean = true].  Reading [topology[relationship]] of an
    undefined [topology], and calling [flatMap] on a value that is not an
    array, are [TypeError]s of the engine. *)
Definition getAccountsIdsByRelationship (this : AIMSClientInstance)
  (accountId : string) (relationship : Relationship) (addCurrentId : option bool)
  : async (list string) :=
  let addCurrentId := default true addCurrentId in
  topology_ <~ getAccountRelationshipTopology this accountId relationship None ;
  let first := if addCurrentId then [accountId] else [] in
  match topology_ with
  | None => reject (TypeError "Cannot read properties of undefined")
  | Some topology_ =>
      match topology_axis relationship topology_ with
      | None => reject (TypeError "Cannot read properties of undefined (reading 'flatMap')")
      | Some accounts_ => resolve (first ++ getIds relationship accounts_)
      end
  end.

(** *** [parseInt( s, 10 )] and [Array.prototype.sort]

    [parseInt] skips leading white space, reads an optional sign and the
    longest run of decimal digits; [None] is [NaN].  Ids are byte strings,
    taken to be ASCII: white space outside ASCII is not skipped.  The
    number is kept as an exact integer, whereas the engine holds a double:
    the two agree on the safe integers ([isSafeInteger] below), which the
    theorems on the order of the candidates assume. *)
Definition is_StrWhiteSpaceChar (c : ascii) : bool :=
  let n := nat_of_ascii c in
  ((n =? 9) || (n =? 10) || (n =? 11) || (n =? 12) || (n =? 13) || (n =? 32))%nat.

Fixpoint trimStart (s : string) : string :=
  match s with
  | String c s' => if is_StrWhiteSpaceChar c then trimStart s' else s
  | EmptyString => s
  end.

Definition digit_of (c : ascii) : option Z :=
  let n := Z.of_nat (nat_of_ascii c) in
  if ((48 <=? n) && (n <=? 57))%Z then Some (n - 48)%Z else None.

Fixpoint digits (s : string) (acc : Z) : Z :=
  match s with
  | String c s' =>
      match digit_of c with
      | Some d => digits s' (10 * acc + d)%Z
      | None => acc
      end
  | EmptyString => acc
  end.

Definition parseInt (s : string) : option Z :=
  let s := trimStart s in
  let '(sign, s) :=
    match s with
    | String "-" s' => ((-1)%Z, s')
    | String "+" s' => (1%Z, s')
    | _ => (1%Z, s)
    end in
  match s with
  | String c _ =>
      match digit_of c with
      | Some _ => Some (sign * digits s 0)%Z
      | None => None
      end
  | EmptyString => None
  end.

(** Subtraction of numbers; [NaN] is contagious. *)
Definition minus (x y : option Z) : option Z :=
  match x, y with
  | Some a, Some b => Some (a - b)%Z
  | _, _ => None
  end.

(** [( a, b ) => parseInt( b.id, 10 ) - parseInt( a.id, 10 )] *)
Definition by_id_descending (a b : AIMSAccount) : option Z :=
  minus (parseInt (AIMSAccount_id b)) (parseInt (AIMSAccount_id a)).

(** [comparefn(y, x) < 0]: [y] has to come before [x]; a [NaN] result is
    read as [+0]. *)
Definition comes_before (v : option Z) : bool :=
  match v with
  | Some z => (z <? 0)%Z
  | None => false
  end.

(** [array.sort( comparefn )]: sorted by [comparefn] and stable, computed by
    insertion from the right end. *)
Fixpoint sort_insert {A : Type} (comparefn : A -> A -> option Z) (x : A)
  (sorted : list A) : list A :=
  match sorted with
  | [] => [x]
  | y :: rest =>
      if comes_before (comparefn y x)
      then y :: sort_insert comparefn x rest
      else x :: sorted
  end.

Definition sort {A : Type} (comparefn : A -> A -> option Z) (array : list A) : list A :=
  foldr (sort_insert comparefn) [] array.

(** [Number.isSafeInteger]: the integers that a double holds exactly, and
    between which subtraction keeps its sign. *)
Definition isSafeInteger (n : Z) : Prop := (- 2 ^ 53 < n < 2 ^ 53)%Z.

(** A candidate whose id is a number, within the safe integers. *)
Definition safe_id (c : AIMSAccount) : Prop :=
  exists n, parseInt (AIMSAccount_id c) = Some n /\ isSafeInteger n.

(** *** [getUsersFromManagedRelationship] *)

(** [{ include_role_ids: false, include_user_credential: false }] *)
Definition plain_users : option queryParams :=
  Some [("include_role_ids", false); ("include_user_credential", false)].

(** [failOnError:boolean = true]; [terminalAccountId?:string].  [fuel]
    bounds the number of levels the ascent may climb: an ascent that needs
    more never settles. *)
Fixpoint getUsersFromManagedRelationship (fuel : nat) (this : AIMSClientInstance)
  (leafAccountId : string) (terminalAccountId : option string)
  (failOnError : option bool) : async (option (list AIMSUser)) :=
  let failOnError := default true failOnError in
  match fuel with
  | 0 => never
  | S fuel' =>
      _ <~ log (Entered leafAccountId terminalAccountId failOnError) ;
      users_ <~ getUsers this leafAccountId plain_users ;
      try_catch
        (managing_ <~ getAccountsByRelationship this leafAccountId "managing" None ;
         match managing_ with
         | None => reject (TypeError "Cannot read properties of undefined (reading 'length')")
         | Some managing_ =>
             if (0 <? length managing_)%nat then
               match sort by_id_descending managing_ with
               | [] => reject (TypeError "Cannot read properties of undefined (reading 'id')")
               | first :: _ =>
                   parentUsers <~ getUsersFromManagedRelationship fuel' this
                                    (AIMSAccount_id first) terminalAccountId None ;
                   match parentUsers with
                   | Some parentUsers =>
                       match users_ with
                       | Some users_ => resolve (Some (users_ ++ parentUsers))
                       | None => reject (TypeError "Cannot read properties of undefined (reading 'concat')")
                       end
                   | None => resolve users_
                   end
               end
             else resolve users_
         end)
        (fun e =>
           if failOnError then reject e
           else (_ <~ log (Swallowed leafAccountId e) ; resolve users_))
  end.

(** *** [getUsersFromAccounts] *)

(** The values collected so far by [Promise.all], once every slot is filled. *)
Fixpoint all_fulfilled {A : Type} (values : list (option A)) : option (list A) :=
  match values with
  | [] => Some []
  | Some v :: rest =>
      match all_fulfilled rest with
      | Some vs => Some (v :: vs)
      | None => None
      end
  | None :: _ => None
  end.

(** The reaction of [Promise.all] to its input promises settling in the
    order [order] (indices into the input): a fulfilment stores the value at
    the index of its promise, the first rejection rejects the whole, and the
    whole is fulfilled with the stored values, in index order, once none is
    missing. *)
Fixpoint Promise_all_settle {A : Type} (order : list nat)
  (promises : list (promise A)) (values : list (option A)) : promise (list A) :=
  match order with
  | [] =>
      match all_fulfilled values with
      | Some vs => Resolved vs
      | None => Pending
      end
  | i :: order' =>
      match promises !! i with
      | Some (Resolved v) => Promise_all_settle order' promises (<[i := Some v]> values)
      | Some (Rejected e) => Rejected e
      | Some Pending | None => Promise_all_settle order' promises values
      end
  end.

(** [Promise.all( promises )], the inputs having been started in array
    order and completing in the order [order]. *)
Definition Promise_all {A : Type} (order : list nat) (promises : list (async A))
  : async (list A) :=
  (concat (map trace promises),
   Promise_all_settle order (map outcome promises)
     (replicate (length promises) None)).

(** [array.flat()] on the array of the fetched values: an element that is an
    array is spliced in, any other element ([None], not an array) is kept as
    it is. *)
Definition flat {A : Type} (array : list (option (list A))) : list (option A) :=
  flat_map (fun element =>
              match element with
              | Some inner => map Some inner
              | None => [None]
              end) array.

Definition getUsersFromAccounts (order : list nat) (this : AIMSClientInstance)
  (accountList : list string) : async (list (option AIMSUser)) :=
  fetched <~ Promise_all order
               (map (fun account => getUsers this account plain_users) accountList) ;
  resolve (flat fetched).

(** *** Reading a log *)

(** The activations of [getUsersFromManagedRelationship] in a log, each with
    the parameter values it received. *)
Definition entries (t : list event) : list (string * option string * bool) :=
  flat_map (fun ev =>
              match ev with
              | Entered leafAccountId terminalAccountId failOnError =>
                  [(leafAccountId, terminalAccountId, failOnError)]
              | _ => []
              end) t.

(** The errors swallowed by a [catch] block, each with the account of the
    level that swallowed it. *)
Definition swallows (t : list event) : list (string * error) :=
  flat_map (fun ev =>
              match ev with
              | Swallowed leafAccountId e => [(leafAccountId, e)]
              | _ => []
              end) t.

(** [fails_above this e a k]: climbing from account [a], every own-users
    fetch and every [managing] query succeeds and yields a candidate to
    ascend to, until the [managing] query of the account [k] levels above
    [a] is rejected with [e]. *)
Inductive fails_above (this : AIMSClientInstance) (e : error) : string -> nat -> Prop :=
| fails_here a users_ :
    outcome (getUsers this a plain_users) = Resolved users_ ->
    outcome (getAccountsByRelationship this a "managing" None) = Rejected e ->
    fails_above this e a 0
| fails_higher a users_ managing_ first rest k :
    outcome (getUsers this a plain_users) = Resolved users_ ->
    outcome (getAccountsByRelationship this a "managing" None) = Resolved (Some managing_) ->
    sort by_id_descending managing_ = first :: rest ->
    fails_above this e (AIMSAccount_id first) k ->
    fails_above this e a (S k).

(** ** Sample data *)

Definition account (id : string) : AIMSAccount := {| AIMSAccount_id := id |}.
Definition user (id : string) : AIMSUser := {| AIMSUser_id := id |}.

(** [A -> [B -> [D], C]] along [managed]. *)
Definition tree_ABDC : AIMSTopology :=
  Topology "A"
    (Some [Topology "B" (Some [Topology "D" None None]) None;
           Topology "C" (Some []) None])
    None.

(** The same tree as objects in a store; object [0] is [A]. *)
Definition store_ABDC : gmap nat object :=
  <[0 := {| object_id := "A"; object_managed := Some [1; 2]; object_managing := None |}]>
  (<[1 := {| object_id := "B"; object_managed := Some [3]; object_managing := None |}]>
  (<[2 := {| object_id := "C"; object_managed := Some []; object_managing := None |}]>
  (<[3 := {| object_id := "D"; object_managed := None; object_managing := None |}]> ∅))).

(** [B] and [C] both list the same child [X]. *)
Definition tree_diamond : AIMSTopology :=
  Topology "A"
    (Some [Topology "B" (Some [Topology "X" None None]) None;
           Topology "C" (Some [Topology "X" None None]) None])
    None.

(** An object [A] whose [managing] array holds [A] itself. *)
Definition store_self : gmap nat object :=
  {[ 0 := {| object_id := "A"; object_managed := None; object_managing := Some [0] |} ]}.

(** A decoded tree in which the id [A] reappears below itself. *)
Definition tree_A_below_A : AIMSTopology :=
  Topology "A" None (Some [Topology "A" None (Some [])]).

Definition body_of_topology (t : option AIMSTopology) : response :=
  {| users := None; accounts := None; topology := t |}.
Definition body_of_users (u : option (list AIMSUser)) : response :=
  {| users := u; accounts := None; topology := None |}.
Definition body_of_accounts (a : option (list AIMSAccount)) : response :=
  {| users := None; accounts := a; topology := None |}.

Definition not_found : error := ClientError "404".
Definition unavailable : error := ClientError "503".

(** Account "100" manages "200" and "300". *)
Definition topology_100 : AIMSTopology :=
  Topology "100" (Some [Topology "200" None None; Topology "300" None None]) None.

(** Account "100" manages "200" and "300", and "200" manages "400". *)
Definition topology_100_nested : AIMSTopology :=
  Topology "100"
    (Some [Topology "200" (Some [Topology "400" (Some []) None]) None;
           Topology "300" (Some []) None])
    None.

(** A collaborator that answers the topology request of account "100" along
    [managed] with the body [body], and nothing else. *)
Definition topology_client (body : response) : AIMSClientInstance :=
  new_AIMSClientInstance
    {| get := fun req =>
         if (path req =? "/accounts/managed/topology") && (account_id req =? "100")
         then Resolved body
         else Rejected not_found |}.

(** Account "5" has two users and is managed by "7", "3" and "9"; account
    "9" has one user, and its [managing] query is answered by [top]. *)
Definition hierarchy_client (top : promise response) : AIMSClientInstance :=
  new_AIMSClientInstance
    {| get := fun req =>
         if path req =? "/users" then
           if account_id req =? "5"
           then Resolved (body_of_users (Some [user "u5a"; user "u5b"]))
           else if account_id req =? "9"
           then Resolved (body_of_users (Some [user "u9"]))
           else Rejected not_found
         else if path req =? "/accounts/managing" then
           if account_id req =? "5"
           then Resolved (body_of_accounts (Some [account "7"; account "3"; account "9"]))
           else if account_id req =? "9"
           then top
           else Rejected not_found
         else Rejected not_found |}.

(** Account "5" is managed by "9" and "9" by "12"; each has one user; the
    [managing] query of "12" is answered by [top]. *)
Definition ladder_client (top : promise response) : AIMSClientInstance :=
  new_AIMSClientInstance
    {| get := fun req =>
         if path req =? "/users" then
           if account_id req =? "5" then Resolved (body_of_users (Some [user "u5"]))
           else if account_id req =? "9" then Resolved (body_of_users (Some [user "u9"]))
           else if account_id req =? "12" then Resolved (body_of_users (Some [user "u12"]))
           else Rejected not_found
         else if path req =? "/accounts/managing" then
           if account_id req =? "5" then Resolved (body_of_accounts (Some [account "9"]))
           else if account_id req =? "9" then Resolved (body_of_accounts (Some [account "12"]))
           else if account_id req =? "12" then top
           else Rejected not_found
         else Rejected not_found |}.

(** A collaborator that validates bodies itself and rejects this one. *)
Definition validating_client : AIMSClientInstance :=
  new_AIMSClientInstance
    {| get := fun _ => Rejected (AlResponseValidationError "Unexpected response format") |}.

(** A collaborator that cannot be reached. *)
Definition unreachable_client : AIMSClientInstance :=
  new_AIMSClientInstance {| get := fun _ => Rejected unavailable |}.

(** Accounts "A", "B" and "C" with their users; the users of "B" are
    answered by [b]. *)
Definition abc_client (b : promise response) : AIMSClientInstance :=
  new_AIMSClientInstance
    {| get := fun req =>
         if path req =? "/users" then
           if account_id req =? "A"
           then Resolved (body_of_users (Some [user "a1"; user "a2"]))
           else if account_id req =? "B"
           then b
           else if account_id req =? "C"
           then Resolved (body_of_users (Some [user "c1"]))
           else Rejected not_found
         else Rejected not_found |}.

(** ** Further notions *)

(** [reaches store relationship r d]: from object [r], following the
    [relationship] arrays one or more times, one arrives at object [d]. *)
Inductive reaches (store : gmap nat object) (relationship : Relationship)
  : nat -> nat -> Prop :=
| reaches_child r o c :
    store !! r = Some o ->
    c ∈ object_children relationship o ->
    reaches store relationship r c
| reaches_below r o c d :
    store !! r = Some o ->
    c ∈ object_children relationship o ->
    reaches store relationship c d ->
    reaches store relationship r d.

(** The decoded node with id [id] and the children [children] along
    [relationship], the other axis being absent. *)
Definition node_along (relationship : Relationship) (id : string)
  (children : list AIMSTopology) : AIMSTopology :=
  match relationship with
  | managed => Topology id (Some children) None
  | managing => Topology id None (Some children)
  end.

(** Objects [1] and [2] hold each other in their [managed] arrays; object
    [0] holds [1]. *)
Definition store_loop : gmap nat object :=
  <[0 := {| object_id := "R"; object_managed := Some [1]; object_managing := None |}]>
  (<[1 := {| object_id := "P"; object_managed := Some [2]; object_managing := None |}]>
  (<[2 := {| object_id := "Q"; object_managed := Some [1]; object_managing := None |}]> ∅)).

(** Objects [1] and [2] both hold object [3]: a shared child. *)
Definition store_shared : gmap nat object :=
  <[0 := {| object_id := "A"; object_managed := Some [1; 2]; object_managing := None |}]>
  (<[1 := {| object_id := "B"; object_managed := Some [3]; object_managing := None |}]>
  (<[2 := {| object_id := "C"; object_managed := Some [3]; object_managing := None |}]>
  (<[3 := {| object_id := "X"; object_managed := None; object_managing := None |}]> ∅))).

(** The body of the endpoints session response, seen through its own
    [cookie] property: [None] when [responseData.hasOwnProperty("cookie")]
    is false. *)
Record endpoints_session : Type := { cookie : option string }.

(** [startEndpointsSession], from the promise [fetched] that
    [this.client.get( requestDescriptor )] returns for the descriptor of
    '/endpoints_session': the [then] callback rejects a body without a
    [cookie] and returns the cookie otherwise. *)
Definition startEndpointsSession (fetched : promise endpoints_session) : promise string :=
  promise_bind fetched
    (fun responseData =>
       match cookie responseData with
       | None =>
           Rejected (AlResponseValidationError
                       "Unexpected response format: no 'cookie' property present.")
       | Some c => Resolved c
       end).


(** The number carried by an account id; [None] for [NaN]. *)
Definition number_of (c : AIMSAccount) : option Z := parseInt (AIMSAccount_id c).

(** Non-increasing by number. *)
Fixpoint descending (l : list AIMSAccount) : Prop :=
  match l with
  | [] => True
  | c :: rest =>
      (forall c' n n', c' ∈ rest -> number_of c = Some n -> number_of c' = Some n' ->
                       (n' <= n)%Z)
      /\ descending rest
  end.


(** Account "5" is managed by "9"; the own users of "9" and the [managing]
    array of "5" are answered by [parent_users] and [candidates]. *)
Definition parent_client (candidates parent_users : promise response)
  : AIMSClientInstance :=
  new_AIMSClientInstance
    {| get := fun req =>
         if path req =? "/users" then
           if account_id req =? "5"
           then Resolved (body_of_users (Some [user "u5a"; user "u5b"]))
           else parent_users
         else if path req =? "/accounts/managing" then
           if account_id req =? "5"
           then candidates
           else Resolved (body_of_accounts (Some []))
         else Rejected not_found |}.

(** The users of "A" and of "B" are answered by [a] and [b]; "C" has one
    user. *)
Definition ab_client (a b : promise response) : AIMSClientInstance :=
  new_AIMSClientInstance
    {| get := fun req =>
         if path req =? "/users" then
           if account_id req =? "A" then a
           else if account_id req =? "B" then b
           else Resolved (body_of_users (Some [user "c1"]))
         else Rejected not_found |}.

(** Two decoded topologies that carry the same ids at the same positions
    along [relationship], whatever else they hold. *)
Inductive same_along (relationship : Relationship)
  : AIMSTopology -> AIMSTopology -> Prop :=
| same_along_node a b :
    topology_id a = topology_id b ->
    Forall2 (same_along relationship)
      (children_of relationship a) (children_of relationship b) ->
    same_along relationship a b.

(** [tree_ABDC] with [managing] arrays added at the root and under [B], and
    an empty [managed] array under [D]. *)
Definition tree_ABDC_both : AIMSTopology :=
  Topology "A"
    (Some [Topology "B" (Some [Topology "D" (Some []) None])
             (Some [Topology "A" None None]);
           Topology "C" (Some []) None])
    (Some [Topology "Z" None None]).

(** * Properties *)

(** ** Flattening of decoded topologies *)

Lemma getIds_callback_eq relationship a :
  getIds_callback relationship a
  = topology_id a :: getIds relationship (children_of relationship a).
Proof.
  destruct a as [i md mg]; destruct relationship; simpl; destruct md, mg; reflexivity.
Qed.

Lemma getIds_cons relationship a accounts :
  getIds relationship (a :: accounts)
  = topology_id a :: getIds relationship (children_of relationship a)
      ++ getIds relationship accounts.
Proof. unfold getIds at 1; simpl. rewrite getIds_callback_eq. reflexivity. Qed.

Lemma getIds_app relationship l1 l2 :
  getIds relationship (l1 ++ l2) = getIds relationship l1 ++ getIds relationship l2.
Proof. unfold getIds. apply flat_map_app. Qed.

Lemma children_size relationship a :
  forest_size (children_of relationship a) < topology_size a.
Proof.
  destruct a as [i md mg]; destruct relationship; unfold children_of, forest_size; simpl;
    destruct md, mg; simpl; lia.
Qed.

(** Induction over forests: from a node's children and its later siblings
    to the forest that starts with the node. *)
Lemma forest_ind relationship (P : list AIMSTopology -> Prop) :
  P [] ->
  (forall a siblings,
      P (children_of relationship a) -> P siblings -> P (a :: siblings)) ->
  forall accounts, P accounts.
Proof.
  intros Hnil Hcons accounts.
  remember (forest_size accounts) as n eqn:Hn.
  revert accounts Hn.
  induction n as [n IH] using lt_wf_ind.
  intros [|a siblings] Hn; [exact Hnil|].
  unfold forest_size in Hn; simpl in Hn.
  pose proof (children_size relationship a) as Hc.
  assert (0 < topology_size a) by (destruct a; simpl; lia).
  apply Hcons.
  - apply (IH (forest_size (children_of relationship a))); [lia | reflexivity].
  - apply (IH (forest_size siblings)); [unfold forest_size; lia | reflexivity].
Qed.

Lemma getIds_Preorder relationship accounts :
  Preorder relationship accounts (getIds relationship accounts).
Proof.
  induction accounts as [|a siblings IHc IHs] using (forest_ind relationship).
  - constructor.
  - rewrite getIds_cons. constructor; assumption.
Qed.

Lemma Preorder_getIds relationship accounts ids :
  Preorder relationship accounts ids -> ids = getIds relationship accounts.
Proof.
  induction 1 as [|a siblings below after _ IHc _ IHs].
  - reflexivity.
  - rewrite getIds_cons. congruence.
Qed.

Lemma occurrences_eq relationship x a :
  occurrences relationship x a
  = (if String.eqb (topology_id a) x then 1 else 0)
    + list_sum (map (occurrences relationship x) (children_of relationship a)).
Proof.
  destruct a as [i md mg]; destruct relationship; unfold children_of; simpl;
    destruct md, mg; reflexivity.
Qed.

(** No occurrence of an id is dropped or merged. *)
Lemma getIds_occurrences relationship x accounts :
  count_occ string_dec (getIds relationship accounts) x
  = list_sum (map (occurrences relationship x) accounts).
Proof.
  induction accounts as [|a siblings IHc IHs] using (forest_ind relationship);
    [reflexivity|].
  rewrite getIds_cons.
  change (list_sum (map (occurrences relationship x) (a :: siblings)))
    with (occurrences relationship x a
          + list_sum (map (occurrences relationship x) siblings)).
  rewrite occurrences_eq, <- IHc, <- IHs.
  cbn [count_occ]. rewrite count_occ_app.
  destruct (string_dec (topology_id a) x) as [Heq|Hne].
  - apply String.eqb_eq in Heq as ->. lia.
  - apply String.eqb_neq in Hne as ->. lia.
Qed.

(** C2: on every finite acyclic topology and either axis, what [getIds]
    returns is exactly the reference pre-order traversal (each node's id,
    then the flattening of its children along the axis, then the next
    sibling), and it is the only such sequence; an id occurs in it as many
    times as it has positions in the topology; [A -> [B -> [D], C]] along
    [managed] flattens to [[A, B, D, C]], and a child [X] listed by both
    [B] and [C] comes out twice. *)
Theorem getIds_is_preorder :
  (forall relationship accounts ids,
      Preorder relationship accounts ids <-> ids = getIds relationship accounts)
  /\ (forall relationship x accounts,
         count_occ string_dec (getIds relationship accounts) x
         = list_sum (map (occurrences relationship x) accounts))
  /\ getIds managed [tree_ABDC] = ["A"; "B"; "D"; "C"]
  /\ getIds managed [tree_diamond] = ["A"; "B"; "X"; "C"; "X"].
Proof.
  repeat split.
  - apply Preorder_getIds.
  - intros ->. apply getIds_Preorder.
  - apply getIds_occurrences.
Qed.

(** ** Flattening of object graphs *)

Lemma topology_height_eq relationship a :
  topology_height relationship a
  = S (forest_height relationship (children_of relationship a)).
Proof.
  destruct a as [i md mg]; destruct relationship; unfold forest_height, children_of; simpl;
    destruct md, mg; reflexivity.
Qed.

Lemma forest_height_cons relationship a siblings :
  forest_height relationship (a :: siblings)
  = Nat.max (topology_height relationship a) (forest_height relationship siblings).
Proof. reflexivity. Qed.

Lemma getIds_graph_cons stack store relationship r refs :
  getIds_graph (S stack) store relationship (r :: refs)
  = (mapped <-- match store !! r with
                | None => Throw (TypeError "Cannot read properties of undefined (reading 'id')")
                | Some o =>
                    ids <-- getIds_graph stack store relationship
                              (object_children relationship o) ;
                    Return (object_id o :: ids)
                end ;
     others <-- getIds_graph (S stack) store relationship refs ;
     Return (mapped ++ others)).
Proof. reflexivity. Qed.

(** On a store that holds a finite forest, a stack deeper than the forest
    is enough, and the graph traversal returns what [getIds] returns on the
    decoded forest. *)
Lemma getIds_graph_represents store relationship accounts :
  forall refs stack,
    Forall2 (represents store relationship) refs accounts ->
    forest_height relationship accounts < stack ->
    getIds_graph stack store relationship refs = Return (getIds relationship accounts).
Proof.
  induction accounts as [|a siblings IHc IHs] using (forest_ind relationship);
    intros refs stack Hrep Hh.
  - inversion Hrep; subst. destruct stack; [lia | reflexivity].
  - inversion Hrep as [|r a' refs' sib' Hr Hrest]; subst.
    destruct stack as [|stack']; [lia|].
    rewrite forest_height_cons, topology_height_eq in Hh.
    inversion Hr as [r' o a' Hlook Hid Hch]; subst.
    rewrite getIds_graph_cons, Hlook.
    rewrite (IHc _ stack' Hch) by lia.
    rewrite (IHs _ (S stack') Hrest) by lia.
    rewrite getIds_cons, Hid. reflexivity.
Qed.

(** An object that is among the objects to flatten and holds itself in its
    own axis array: no stack is deep enough, the traversal throws. *)
Lemma getIds_graph_self_child store relationship r o :
  store !! r = Some o ->
  r ∈ object_children relationship o ->
  forall stack refs, r ∈ refs ->
    exists e, getIds_graph stack store relationship refs = Throw e.
Proof.
  intros Hlook Hself stack.
  induction stack as [|stack IH]; intros refs Hin.
  - eexists; reflexivity.
  - induction refs as [|x refs IHrefs]; [inversion Hin|].
    rewrite getIds_graph_cons.
    destruct (decide (x = r)) as [->|Hne].
    + rewrite Hlook. destruct (IH _ Hself) as [e ->]. eexists; reflexivity.
    + assert (r ∈ refs) as Hin' by (apply elem_of_cons in Hin as [?|?]; congruence).
      destruct (IHrefs Hin') as [e ->].
      destruct (store !! x) as [ox|]; [|eexists; reflexivity].
      destruct (getIds_graph stack store relationship (object_children relationship ox));
        eexists; reflexivity.
Qed.

Lemma getIds_graph_self_overflow stack :
  getIds_graph stack store_self managing [0] = Throw stack_overflow.
Proof.
  induction stack as [|stack IH]; [reflexivity|].
  rewrite getIds_graph_cons.
  replace (store_self !! 0)
    with (Some {| object_id := "A"; object_managed := None; object_managing := Some [0] |})
    by reflexivity.
  unfold object_children; simpl. rewrite IH. reflexivity.
Qed.

(** C1, as the code has it: [getIds] keeps no depth limit and no set of
    the ids on the active path.  On every finite tree-shaped topology (the
    shape of a decoded response body) it terminates as soon as the stack is
    deeper than the tree, and returns the complete pre-order flattening:
    nothing is cut, an id that reappears below itself is emitted again. *)
Theorem getIds_terminates_on_trees store relationship refs accounts stack :
  Forall2 (represents store relationship) refs accounts ->
  forest_height relationship accounts < stack ->
  getIds_graph stack store relationship refs = Return (getIds relationship accounts)
  /\ Preorder relationship accounts (getIds relationship accounts).
Proof.
  intros Hrep Hh. split.
  - apply getIds_graph_represents; assumption.
  - apply getIds_Preorder.
Qed.

Lemma represents_ABDC : represents store_ABDC managed 0 tree_ABDC.
Proof.
  eapply represents_node; [reflexivity | reflexivity |].
  repeat constructor.
  - eapply represents_node; [reflexivity | reflexivity |].
    repeat constructor.
    eapply represents_node; [reflexivity | reflexivity | constructor].
  - eapply represents_node; [reflexivity | reflexivity | constructor].
Qed.

Lemma getIds_terminates_on_trees_witness :
  getIds_graph 4 store_ABDC managed [0] = Return ["A"; "B"; "D"; "C"].
Proof.
  refine (proj1 (getIds_terminates_on_trees store_ABDC managed [0] [tree_ABDC] 4 _ _)).
  - constructor; [exact represents_ABDC | constructor].
  - vm_compute. lia.
Defined.

(** C1 fails on the code in both of its parts.  With [A] holding itself in
    its [managing] array the traversal never returns [[A]]: it overflows
    every stack.  And when the id [A] reappears on its own ancestor path in
    a decoded tree, the axis is not cut: the id is emitted again. *)
Lemma getIds_no_cycle_guard :
  (forall stack, getIds_graph stack store_self managing [0] = Throw stack_overflow)
  /\ (forall stack, getIds_graph stack store_self managing [0] <> Return ["A"])
  /\ getIds managing [tree_A_below_A] = ["A"; "A"]
  /\ getIds managing [tree_A_below_A] <> ["A"].
Proof.
  split; [exact getIds_graph_self_overflow|].
  split; [intros stack; rewrite getIds_graph_self_overflow; discriminate|].
  split; [reflexivity | discriminate].
Qed.

(** ** Async functions *)

Lemma outcome_await {A B : Type} (m : async A) (k : A -> async B) :
  outcome (await m k) = promise_bind (outcome m) (fun v => outcome (k v)).
Proof. unfold await. destruct (outcome m); reflexivity. Qed.

Lemma getUsers_trace this accountId queryParams :
  getUsers this accountId queryParams
  = ([Requested (users_request this accountId queryParams)],
     outcome (getUsers this accountId queryParams)).
Proof.
  unfold getUsers, await, client_get, outcome, trace; simpl.
  destruct (get (client this) _); reflexivity.
Qed.

Lemma getAccountsByRelationship_trace this accountId relationship queryParams :
  getAccountsByRelationship this accountId relationship queryParams
  = ([Requested (accounts_request this accountId relationship queryParams)],
     outcome (getAccountsByRelationship this accountId relationship queryParams)).
Proof.
  unfold getAccountsByRelationship, await, client_get, outcome, trace; simpl.
  destruct (get (client this) _); reflexivity.
Qed.

Lemma outcome_getAccountRelationshipTopology this accountId relationship queryParams :
  outcome (getAccountRelationshipTopology this accountId relationship queryParams)
  = promise_bind
      (get (client this) (topology_request this accountId relationship queryParams))
      (fun body => Resolved (topology body)).
Proof. unfold getAccountRelationshipTopology. rewrite outcome_await. reflexivity. Qed.

(** ** [getAccountsIdsByRelationship] *)

(** C3: when the fetch returns a topology whose [relationship] axis is the
    array [accounts_], [getAccountsIdsByRelationship] resolves with the
    flattened axis, that is the one sequence which is the pre-order
    traversal of [accounts_], descendants included, with [accountId] in
    front exactly when [addCurrentId] is true (the default). *)
Theorem getAccountsIdsByRelationship_prefix
  this accountId relationship addCurrentId topology_ accounts_ :
  outcome (getAccountRelationshipTopology this accountId relationship None)
  = Resolved (Some topology_) ->
  topology_axis relationship topology_ = Some accounts_ ->
  exists ids,
    Preorder relationship accounts_ ids
    /\ (forall ids', Preorder relationship accounts_ ids' -> ids' = ids)
    /\ outcome (getAccountsIdsByRelationship this accountId relationship addCurrentId)
       = Resolved (if default true addCurrentId then accountId :: ids else ids).
Proof.
  intros Hfetch Haxis.
  exists (getIds relationship accounts_).
  split; [apply getIds_Preorder|]. split; [apply Preorder_getIds|].
  unfold getAccountsIdsByRelationship.
  rewrite outcome_await, Hfetch. simpl. rewrite Haxis.
  destruct addCurrentId as [[|]|]; reflexivity.
Qed.

Lemma getAccountsIdsByRelationship_prefix_witness :
  let plain := topology_client (body_of_topology (Some topology_100)) in
  let nested := topology_client (body_of_topology (Some topology_100_nested)) in
  outcome (getAccountsIdsByRelationship plain "100" managed (Some true))
  = Resolved ["100"; "200"; "300"]
  /\ outcome (getAccountsIdsByRelationship plain "100" managed (Some false))
     = Resolved ["200"; "300"]
  /\ outcome (getAccountsIdsByRelationship nested "100" managed None)
     = Resolved ["100"; "200"; "400"; "300"]
  /\ outcome (getAccountsIdsByRelationship nested "100" managed (Some false))
     = Resolved ["200"; "400"; "300"].
Proof.
  intros plain nested.
  pose proof (fun addCurrentId =>
    getAccountsIdsByRelationship_prefix plain "100" managed addCurrentId topology_100
      [Topology "200" None None; Topology "300" None None] eq_refl eq_refl) as Hplain.
  pose proof (fun addCurrentId =>
    getAccountsIdsByRelationship_prefix nested "100" managed addCurrentId
      topology_100_nested
      [Topology "200" (Some [Topology "400" (Some []) None]) None;
       Topology "300" (Some []) None] eq_refl eq_refl) as Hnested.
  split; [|split; [|split]].
  - destruct (Hplain (Some true)) as (ids & Hpre & _ & Hout).
    apply Preorder_getIds in Hpre. subst ids. exact Hout.
  - destruct (Hplain (Some false)) as (ids & Hpre & _ & Hout).
    apply Preorder_getIds in Hpre. subst ids. exact Hout.
  - destruct (Hnested None) as (ids & Hpre & _ & Hout).
    apply Preorder_getIds in Hpre. subst ids. exact Hout.
  - destruct (Hnested (Some false)) as (ids & Hpre & _ & Hout).
    apply Preorder_getIds in Hpre. subst ids. exact Hout.
Defined.

(** C9 fails on the code: a fulfilled response without the topology root
    makes [getAccountRelationshipTopology] resolve, with the missing value,
    and [getAccountsIdsByRelationship] reject with the engine's [TypeError];
    a root without the axis array gives the same [TypeError].  Neither is a
    validation failure. *)
Lemma topology_fields_not_validated :
  let bare := topology_client (body_of_topology None) in
  let no_axis := topology_client (body_of_topology (Some (Topology "100" None None))) in
  outcome (getAccountRelationshipTopology bare "100" managed None) = Resolved None
  /\ outcome (getAccountsIdsByRelationship bare "100" managed None)
     = Rejected (TypeError "Cannot read properties of undefined")
  /\ outcome (getAccountRelationshipTopology no_axis "100" managed None)
     = Resolved (Some (Topology "100" None None))
  /\ outcome (getAccountsIdsByRelationship no_axis "100" managed None)
     = Rejected (TypeError "Cannot read properties of undefined (reading 'flatMap')")
  /\ ~ (exists message,
          outcome (getAccountsIdsByRelationship bare "100" managed None)
          = Rejected (AlResponseValidationError message)).
Proof.
  intros bare no_axis. repeat split.
  intros [message H]. discriminate H.
Qed.

(** C9, as the code has it: no validation takes place at this layer.
    [getAccountRelationshipTopology] resolves with whatever the [topology]
    field of a fulfilled response holds, a missing one included; a
    validation failure that [getAccountsIdsByRelationship] rejects with is
    the collaborator's own rejection passed on; and a node below the root
    that lacks the axis array is flattened as a node without children. *)
Theorem topology_passed_unvalidated this accountId relationship :
  (forall queryParams body,
      get (client this) (topology_request this accountId relationship queryParams)
      = Resolved body ->
      outcome (getAccountRelationshipTopology this accountId relationship queryParams)
      = Resolved (topology body))
  /\ (forall addCurrentId e,
         outcome (getAccountsIdsByRelationship this accountId relationship addCurrentId)
         = Rejected e ->
         is_validation_error e = true ->
         get (client this) (topology_request this accountId relationship None)
         = Rejected e)
  /\ (forall a,
         topology_axis relationship a = None ->
         getIds relationship [a] = [topology_id a]).
Proof.
  repeat split.
  - intros queryParams body H.
    rewrite outcome_getAccountRelationshipTopology, H. reflexivity.
  - intros addCurrentId e H Hv.
    unfold getAccountsIdsByRelationship in H.
    rewrite outcome_await, outcome_getAccountRelationshipTopology in H.
    destruct (get (client this) (topology_request this accountId relationship None))
      as [body|e'|]; simpl in H.
    + destruct (topology body) as [t|]; simpl in H.
      * destruct (topology_axis relationship t); simpl in H;
          inversion H; subst; discriminate Hv.
      * inversion H; subst; discriminate Hv.
    + congruence.
    + discriminate H.
  - intros a H. rewrite getIds_cons. unfold children_of. rewrite H. reflexivity.
Qed.

Lemma topology_passed_unvalidated_witness :
  outcome (getAccountRelationshipTopology (topology_client (body_of_topology None))
             "100" managed None) = Resolved None
  /\ get (client validating_client) (topology_request validating_client "100" managed None)
     = Rejected (AlResponseValidationError "Unexpected response format")
  /\ getIds managed [Topology "200" None None] = ["200"].
Proof.
  pose proof (topology_passed_unvalidated
                (topology_client (body_of_topology None)) "100" managed) as [H1 [_ H3]].
  pose proof (topology_passed_unvalidated validating_client "100" managed) as [_ [H2 _]].
  split; [|split].
  - exact (H1 None (body_of_topology None) eq_refl).
  - exact (H2 None (AlResponseValidationError "Unexpected response format")
             eq_refl eq_refl).
  - exact (H3 (Topology "200" None None) eq_refl).
Defined.

(** ** The sort of the candidates *)

Lemma sort_nil_inv {A : Type} (comparefn : A -> A -> option Z) array :
  sort comparefn array = [] -> array = [].
Proof.
  destruct array as [|x rest]; [reflexivity|].
  unfold sort; simpl.
  destruct (foldr (sort_insert comparefn) [] rest) as [|y sorted]; simpl; [discriminate|].
  destruct (comes_before (comparefn y x)); discriminate.
Qed.


Example sort_7_3_9 :
  sort by_id_descending [account "7"; account "3"; account "9"]
  = [account "9"; account "7"; account "3"].
Proof. reflexivity. Qed.

Example parseInt_samples :
  parseInt "12345678" = Some 12345678%Z
  /\ parseInt "  -42abc" = Some (-42)%Z
  /\ parseInt "x9" = None
  /\ parseInt "" = None.
Proof. repeat split. Qed.

Lemma safe_id_number c : safe_id c -> is_Some (parseInt (AIMSAccount_id c)).
Proof. intros (n & Hn & _). exists n. exact Hn. Qed.

(** ** One level of [getUsersFromManagedRelationship] *)

Arguments getUsers : simpl never.
Arguments getAccountsByRelationship : simpl never.

(** Runs a level up to its two requests, given how each settled. *)
Ltac run_level Hu Hm :=
  simpl; rewrite getUsers_trace, Hu, getAccountsByRelationship_trace, Hm.

(** The own-users fetch is rejected: nothing else is requested. *)
Lemma walker_users_rejected fuel this leaf terminal foe e :
  outcome (getUsers this leaf plain_users) = Rejected e ->
  getUsersFromManagedRelationship (S fuel) this leaf terminal foe
  = ([Entered leaf terminal (default true foe);
      Requested (users_request this leaf plain_users)],
     Rejected e).
Proof.
  intros H. simpl. rewrite getUsers_trace, H. reflexivity.
Qed.

(** The [managing] query of this level is rejected. *)
Lemma walker_query_rejected fuel this leaf terminal foe users_ e :
  outcome (getUsers this leaf plain_users) = Resolved users_ ->
  outcome (getAccountsByRelationship this leaf "managing" None) = Rejected e ->
  getUsersFromManagedRelationship (S fuel) this leaf terminal foe
  = (Entered leaf terminal (default true foe)
       :: Requested (users_request this leaf plain_users)
       :: Requested (accounts_request this leaf "managing" None)
       :: (if default true foe then [] else [Swallowed leaf e]),
     if default true foe then Rejected e else Resolved users_).
Proof.
  intros Hu Hm. run_level Hu Hm.
  destruct (default true foe); reflexivity.
Qed.

(** The level ascends: what it logs and how it settles, from the ascent it
    awaits. *)
Lemma walker_ascent fuel this leaf terminal foe users_ managing_ first rest :
  outcome (getUsers this leaf plain_users) = Resolved users_ ->
  outcome (getAccountsByRelationship this leaf "managing" None)
  = Resolved (Some managing_) ->
  sort by_id_descending managing_ = first :: rest ->
  let ascent :=
    getUsersFromManagedRelationship fuel this (AIMSAccount_id first) terminal None in
  let caught e :=
    if default true foe then ([], Rejected e)
    else ([Swallowed leaf e], Resolved users_) in
  let after : async (option (list AIMSUser)) :=
    match outcome ascent with
    | Resolved (Some parentUsers) =>
        match users_ with
        | Some own => ([], Resolved (Some (own ++ parentUsers)))
        | None =>
            caught (TypeError "Cannot read properties of undefined (reading 'concat')")
        end
    | Resolved None => ([], Resolved users_)
    | Rejected e => caught e
    | Pending => ([], Pending)
    end in
  getUsersFromManagedRelationship (S fuel) this leaf terminal foe
  = (Entered leaf terminal (default true foe)
       :: Requested (users_request this leaf plain_users)
       :: Requested (accounts_request this leaf "managing" None)
       :: trace ascent ++ trace after,
     outcome after).
Proof.
  intros Hu Hm Hsort ascent caught after.
  assert ((0 <? length managing_)%nat = true) as Hlen.
  { destruct managing_; [discriminate Hsort | reflexivity]. }
  run_level Hu Hm.
  unfold await at 1 2 3. simpl. rewrite Hlen, Hsort.
  fold ascent. subst after caught.
  unfold try_catch, await.
  destruct (outcome ascent) as [[parentUsers|]| |] eqn:E; simpl.
  - destruct users_ as [own|]; simpl.
    + rewrite app_nil_r. reflexivity.
    + destruct (default true foe); simpl; rewrite ?app_nil_r; reflexivity.
  - rewrite app_nil_r. reflexivity.
  - destruct (default true foe); simpl; rewrite ?app_nil_r; reflexivity.
  - rewrite app_nil_r. reflexivity.
Qed.

Lemma walker_default fuel this leaf terminal :
  getUsersFromManagedRelationship fuel this leaf terminal (Some true)
  = getUsersFromManagedRelationship fuel this leaf terminal None.
Proof. destruct fuel; reflexivity. Qed.

Lemma entries_app t1 t2 : entries (t1 ++ t2) = entries t1 ++ entries t2.
Proof. apply flat_map_app. Qed.

Lemma swallows_app t1 t2 : swallows (t1 ++ t2) = swallows t1 ++ swallows t2.
Proof. apply flat_map_app. Qed.

(** The log of one level: its own entry, the requests it issued, the log of
    the ascent if it ascended, and the error it swallowed, if any, which
    takes a false [failOnError]. *)
Lemma walker_shape fuel this leaf terminal foe :
  exists requests above tail,
    trace (getUsersFromManagedRelationship (S fuel) this leaf terminal foe)
    = Entered leaf terminal (default true foe) :: requests ++ above ++ tail
    /\ entries requests = [] /\ swallows requests = []
    /\ (above = []
        \/ exists first,
             above = trace (getUsersFromManagedRelationship fuel this first terminal None))
    /\ (tail = []
        \/ default true foe = false /\ exists e, tail = [Swallowed leaf e]).
Proof.
  destruct (outcome (getUsers this leaf plain_users)) as [users_|e|] eqn:Hu.
  2:{ rewrite (walker_users_rejected _ _ _ _ _ _ Hu).
      exists [Requested (users_request this leaf plain_users)], [], [].
      repeat split; auto. }
  2:{ simpl. rewrite getUsers_trace, Hu.
      exists [Requested (users_request this leaf plain_users)], [], [].
      repeat split; auto. }
  destruct (outcome (getAccountsByRelationship this leaf "managing" None))
    as [[managing_|]|e|] eqn:Hm.
  - destruct (sort by_id_descending managing_) as [|first rest] eqn:Hsort.
    + apply sort_nil_inv in Hsort as ->.
      run_level Hu Hm.
      exists [Requested (users_request this leaf plain_users);
              Requested (accounts_request this leaf "managing" None)], [], [].
      repeat split; auto.
    + rewrite (walker_ascent _ _ _ _ _ _ _ _ _ Hu Hm Hsort).
      eexists [Requested (users_request this leaf plain_users);
               Requested (accounts_request this leaf "managing" None)], _, _.
      split; [reflexivity|]. split; [reflexivity|]. split; [reflexivity|].
      split; [right; eexists; reflexivity|].
      destruct (outcome (getUsersFromManagedRelationship fuel this
                           (AIMSAccount_id first) terminal None)) as [[pu|]|e|];
        destruct users_; destruct (default true foe); simpl; eauto.
  - run_level Hu Hm.
    exists [Requested (users_request this leaf plain_users);
            Requested (accounts_request this leaf "managing" None)], [].
    destruct (default true foe); eexists; (split; [reflexivity|]); repeat split; eauto.
  - rewrite (walker_query_rejected _ _ _ _ _ _ _ Hu Hm).
    exists [Requested (users_request this leaf plain_users);
            Requested (accounts_request this leaf "managing" None)], [].
    destruct (default true foe); eexists; (split; [reflexivity|]); repeat split; eauto.
  - run_level Hu Hm.
    exists [Requested (users_request this leaf plain_users);
            Requested (accounts_request this leaf "managing" None)], [], [].
    repeat split; auto.
Qed.

(** Every ascent is entered with the terminal account id of the entry
    level, and with [failOnError] true, whatever the entry level received. *)
Lemma walker_entries fuel this :
  forall leaf terminal foe,
    entries (trace (getUsersFromManagedRelationship fuel this leaf terminal foe)) = []
    \/ exists above,
         entries (trace (getUsersFromManagedRelationship fuel this leaf terminal foe))
         = (leaf, terminal, default true foe) :: above
         /\ Forall (fun en => en.1.2 = terminal /\ en.2 = true) above.
Proof.
  induction fuel as [|fuel IH]; intros leaf terminal foe; [left; reflexivity|].
  right.
  destruct (walker_shape fuel this leaf terminal foe)
    as (requests & above & tail & -> & Hreq & _ & Habove & Htail).
  simpl. rewrite !entries_app, Hreq. simpl.
  assert (entries tail = []) as ->.
  { destruct Htail as [->|[_ [e ->]]]; reflexivity. }
  rewrite app_nil_r.
  eexists; split; [reflexivity|].
  destruct Habove as [->|[first ->]]; [constructor|].
  destruct (IH first terminal None) as [->|(above' & -> & Hall)]; [constructor|].
  constructor; [split; reflexivity | exact Hall].
Qed.

(** A level that was entered with [failOnError] true swallows nothing, and
    neither does any level above it. *)
Lemma walker_strict_swallows_nothing fuel this :
  forall leaf terminal,
    swallows (trace (getUsersFromManagedRelationship fuel this leaf terminal None)) = [].
Proof.
  induction fuel as [|fuel IH]; intros leaf terminal; [reflexivity|].
  destruct (walker_shape fuel this leaf terminal None)
    as (requests & above & tail & -> & _ & Hreq & Habove & Htail).
  simpl. rewrite !swallows_app, Hreq. simpl.
  destruct Htail as [->|[Hf _]]; [|discriminate Hf].
  destruct Habove as [->|[first ->]]; [reflexivity|].
  rewrite IH. reflexivity.
Qed.

(** ** [getUsersFromManagedRelationship] *)

(** C10: when the fetch of the leaf account's own users is rejected, the
    call is rejected with that error whatever [failOnError] is: the fetch
    precedes the [try] block, nothing else is requested and nothing is
    swallowed. *)
Theorem own_users_failure_rejects fuel this leaf terminal foe e :
  outcome (getUsers this leaf plain_users) = Rejected e ->
  outcome (getUsersFromManagedRelationship (S fuel) this leaf terminal foe) = Rejected e
  /\ trace (getUsersFromManagedRelationship (S fuel) this leaf terminal foe)
     = [Entered leaf terminal (default true foe);
        Requested (users_request this leaf plain_users)].
Proof.
  intros H. rewrite (walker_users_rejected _ _ _ _ _ _ H). split; reflexivity.
Qed.

Lemma own_users_failure_rejects_witness :
  outcome (getUsersFromManagedRelationship 1 unreachable_client "5" None (Some false))
  = Rejected unavailable.
Proof.
  exact (proj1 (own_users_failure_rejects 0 unreachable_client "5" None (Some false)
                  unavailable eq_refl)).
Defined.



(** ** Failure of a [managing] query *)

Lemma fails_above_rejects this e leaf k :
  fails_above this e leaf k ->
  forall fuel terminal, k < fuel ->
    outcome (getUsersFromManagedRelationship fuel this leaf terminal None) = Rejected e.
Proof.
  induction 1 as [a users_ Hu Hm | a users_ managing_ first rest k Hu Hm Hsort _ IH];
    intros fuel terminal Hk; (destruct fuel as [|fuel]; [lia|]).
  - rewrite (walker_query_rejected _ _ _ _ _ _ _ Hu Hm). reflexivity.
  - rewrite (walker_ascent _ _ _ _ _ _ _ _ _ Hu Hm Hsort).
    simpl. rewrite IH by lia. reflexivity.
Qed.

(** What the code does when the [managing] query of some level, [k] levels
    above the leaf, is rejected with [e].  With [failOnError] true (given
    or by default) the call is rejected with [e].  With [failOnError] false
    the error is swallowed once, by the entry level (the levels above run
    with the default), and the call resolves with the value of the leaf's
    own-users fetch alone. *)
Lemma managing_failure_policy this e leaf k fuel terminal own :
  fails_above this e leaf k ->
  k < fuel ->
  outcome (getUsers this leaf plain_users) = Resolved own ->
  outcome (getUsersFromManagedRelationship fuel this leaf terminal (Some true))
  = Rejected e
  /\ outcome (getUsersFromManagedRelationship fuel this leaf terminal None) = Rejected e
  /\ outcome (getUsersFromManagedRelationship fuel this leaf terminal (Some false))
     = Resolved own
  /\ swallows (trace (getUsersFromManagedRelationship fuel this leaf terminal (Some false)))
     = [(leaf, e)].
Proof.
  intros Hfail Hk Hown.
  rewrite walker_default.
  split; [|split]; try (eapply fails_above_rejects; eassumption).
  destruct fuel as [|fuel]; [lia|].
  inversion Hfail as [a users_ Hu Hm | a users_ managing_ first rest k' Hu Hm Hsort Habove];
    subst.
  - rewrite (walker_query_rejected _ _ _ _ _ _ _ Hu Hm). simpl.
    split; [congruence | reflexivity].
  - rewrite (walker_ascent _ _ _ _ _ _ _ _ _ Hu Hm Hsort).
    simpl.
    rewrite (fails_above_rejects _ _ _ _ Habove fuel terminal) by lia. simpl.
    split; [congruence|].
    rewrite swallows_app, walker_strict_swallows_nothing. reflexivity.
Qed.

Example managing_failure_policy_one_level_up :
  let this := hierarchy_client (Rejected unavailable) in
  outcome (getUsersFromManagedRelationship 2 this "5" None (Some true))
  = Rejected unavailable
  /\ outcome (getUsersFromManagedRelationship 2 this "5" None None)
     = Rejected unavailable
  /\ outcome (getUsersFromManagedRelationship 2 this "5" None (Some false))
     = Resolved (Some [user "u5a"; user "u5b"])
  /\ swallows (trace (getUsersFromManagedRelationship 2 this "5" None (Some false)))
     = [("5", unavailable)].
Proof.
  intros this.
  apply (managing_failure_policy this unavailable "5" 1 2 None
           (Some [user "u5a"; user "u5b"])).
  - eapply (fails_higher this unavailable "5" _ _ (account "9") _ 0);
      [reflexivity | reflexivity | reflexivity |].
    eapply fails_here; reflexivity.
  - lia.
  - reflexivity.
Defined.

(** C6 does not hold of the code, in its half on [failOnError] false: the
    call does not return the users accumulated through the levels below the
    failure.  The levels above the entry level run with the default
    [failOnError] (the defect of C5), so a rejected [managing] query up
    there rejects every level on its way down to the entry level, the only
    one to swallow it, and the users already fetched for the levels between
    are dropped.  Here the [managing] query of "12", two levels above "5",
    is rejected: the users of "9" and of "12" have been fetched, the three
    levels have been entered, and the call resolves with the users of "5"
    alone.  The half on [failOnError] true holds: the call is rejected. *)
Theorem tolerant_failure_drops_fetched_users :
  let this := ladder_client (Rejected unavailable) in
  let call foe := getUsersFromManagedRelationship 3 this "5" None foe in
  outcome (getUsers this "9" plain_users) = Resolved (Some [user "u9"])
  /\ outcome (getUsers this "12" plain_users) = Resolved (Some [user "u12"])
  /\ entries (trace (call (Some false)))
     = [("5", None, false); ("9", None, true); ("12", None, true)]
  /\ swallows (trace (call (Some false))) = [("5", unavailable)]
  /\ outcome (call (Some false)) = Resolved (Some [user "u5"])
  /\ outcome (call (Some false)) <> Resolved (Some [user "u5"; user "u9"; user "u12"])
  /\ outcome (call (Some true)) = Rejected unavailable.
Proof.
  intros this call.
  split; [reflexivity|]. split; [reflexivity|]. split; [reflexivity|].
  split; [reflexivity|]. split; [reflexivity|]. split; [discriminate | reflexivity].
Qed.

(** C5 does not hold of the code: the ascent is called with two arguments,
    so each level above the entry level runs with the default [failOnError],
    true, whatever the entry level received; the terminal account id is
    passed on unchanged.  Entered with [failOnError] false, account "5"
    ascends into "9" with [failOnError] true; the rejected [managing] query
    of "9" then rejects that level, and the users of "9" are lost. *)
Theorem ascent_runs_with_default_policy :
  (forall fuel this leaf terminal foe,
      entries (trace (getUsersFromManagedRelationship fuel this leaf terminal foe)) = []
      \/ exists above,
           entries (trace (getUsersFromManagedRelationship fuel this leaf terminal foe))
           = (leaf, terminal, default true foe) :: above
           /\ Forall (fun en => en.1.2 = terminal /\ en.2 = true) above)
  /\ entries (trace (getUsersFromManagedRelationship 2
                       (hierarchy_client (Rejected unavailable)) "5" (Some "1") (Some false)))
     = [("5", Some "1", false); ("9", Some "1", true)]
  /\ outcome (getUsersFromManagedRelationship 2
                (hierarchy_client (Rejected unavailable)) "5" (Some "1") (Some false))
     = Resolved (Some [user "u5a"; user "u5b"]).
Proof.
  split; [|split; reflexivity].
  intros fuel this. apply walker_entries.
Qed.

(** ** [getUsersFromAccounts] *)

Section promise_all.
Context {A : Type}.
Implicit Types (vs : list A) (promises : list (promise A)).

Lemma all_fulfilled_Some vs :
  all_fulfilled (Some <$> vs) = Some vs.
Proof.
  induction vs as [|v vs IH]; [reflexivity|].
  rewrite fmap_cons. cbn [all_fulfilled]. rewrite IH. reflexivity.
Qed.

(** All inputs are fulfilled: whatever the completion order, once every
    input has completed the stored values are the inputs' values in index
    order. *)
Lemma Promise_all_settle_resolved vs :
  forall order values,
    length values = length vs ->
    (forall i v, vs !! i = Some v ->
       values !! i = Some (Some v) \/ (values !! i = Some None /\ i ∈ order)) ->
    Promise_all_settle order (Resolved <$> vs) values = Resolved vs.
Proof.
  induction order as [|j order IH]; intros values Hlen Hslots; simpl.
  - replace values with (Some <$> vs); [rewrite all_fulfilled_Some; reflexivity|].
    apply list_eq. intros i. rewrite list_lookup_fmap.
    destruct (vs !! i) as [v|] eqn:Hv; simpl.
    + destruct (Hslots i v Hv) as [H|[_ H]]; [congruence | inversion H].
    + apply lookup_ge_None in Hv. symmetry. apply lookup_ge_None. lia.
  - rewrite list_lookup_fmap.
    destruct (vs !! j) as [vj|] eqn:Hj; simpl.
    + apply IH; [rewrite length_insert; exact Hlen|].
      intros i v Hv. destruct (decide (i = j)) as [->|Hne].
      * left. rewrite list_lookup_insert_eq; [congruence|].
        apply lookup_lt_Some in Hj. lia.
      * rewrite list_lookup_insert_ne by congruence.
        destruct (Hslots i v Hv) as [H|[H Hin]]; [left; exact H|].
        right. split; [exact H|].
        apply elem_of_cons in Hin as [?|?]; [congruence | assumption].
    + apply IH; [exact Hlen|].
      intros i v Hv.
      destruct (Hslots i v Hv) as [H|[H Hin]]; [left; exact H|].
      right. split; [exact H|].
      apply elem_of_cons in Hin as [->|?]; [congruence | assumption].
Qed.

(** One input that completes is rejected: the whole is rejected, with the
    error of an input. *)
Lemma Promise_all_settle_rejected promises i e :
  promises !! i = Some (Rejected e) ->
  forall order values, i ∈ order ->
    exists j e', promises !! j = Some (Rejected e')
                 /\ Promise_all_settle order promises values = Rejected e'.
Proof.
  intros Hi. induction order as [|j order IH]; intros values Hin; [inversion Hin|].
  simpl.
  destruct (promises !! j) as [[v|e'|]|] eqn:Hj.
  - apply IH. apply elem_of_cons in Hin as [->|?]; [congruence | assumption].
  - exists j, e'. split; [exact Hj | reflexivity].
  - apply IH. apply elem_of_cons in Hin as [->|?]; [congruence | assumption].
  - apply IH. apply elem_of_cons in Hin as [->|?]; [congruence | assumption].
Qed.

Lemma flat_arrays (arrays : list (list A)) :
  flat (map Some arrays) = map Some (concat arrays).
Proof.
  induction arrays as [|a arrays IH]; [reflexivity|].
  unfold flat in *. simpl. rewrite IH, map_app. reflexivity.
Qed.

End promise_all.

Lemma outcome_getUsersFromAccounts order this accountList :
  outcome (getUsersFromAccounts order this accountList)
  = promise_bind
      (Promise_all_settle order
         ((fun account => outcome (getUsers this account plain_users)) <$> accountList)
         (replicate (length accountList) None))
      (fun fetched => Resolved (flat fetched)).
Proof.
  unfold getUsersFromAccounts. rewrite outcome_await.
  unfold Promise_all, outcome at 1; simpl.
  rewrite map_map, length_map. reflexivity.
Qed.


(** C7: when every per-account fetch is fulfilled, with the users
    [usersOf account], the aggregate is the concatenation of the accounts'
    users in the order of [accountList], for every order in which the
    fetches complete. *)
Theorem getUsersFromAccounts_input_order order this accountList
  (usersOf : string -> list AIMSUser) :
  order ≡ₚ seq 0 (length accountList) ->
  (forall account, account ∈ accountList ->
     outcome (getUsers this account plain_users) = Resolved (Some (usersOf account))) ->
  outcome (getUsersFromAccounts order this accountList)
  = Resolved (map Some (concat (map usersOf accountList))).
Proof.
  intros Horder Hfetch.
  rewrite outcome_getUsersFromAccounts.
  replace ((fun account => outcome (getUsers this account plain_users)) <$> accountList)
    with (Resolved <$> (Some <$> (usersOf <$> accountList))).
  - rewrite (Promise_all_settle_resolved (Some <$> (usersOf <$> accountList))).
    + simpl. change (Some <$> (usersOf <$> accountList))
        with (map Some (map usersOf accountList)).
      rewrite flat_arrays. reflexivity.
    + rewrite length_replicate, !length_fmap. reflexivity.
    + intros i v Hv. right.
      apply lookup_lt_Some in Hv as Hlt. rewrite !length_fmap in Hlt.
      split; [apply lookup_replicate_2; exact Hlt|].
      rewrite Horder. apply elem_of_seq. lia.
  - rewrite <- !list_fmap_compose. apply Forall_fmap_ext_1.
    apply Forall_forall. intros account Hin. simpl. symmetry. apply Hfetch. exact Hin.
Qed.

Lemma getUsersFromAccounts_input_order_witness :
  outcome (getUsersFromAccounts [1; 0; 2]
             (abc_client (Resolved (body_of_users (Some [user "b1"]))))
             ["A"; "B"; "C"])
  = Resolved [Some (user "a1"); Some (user "a2"); Some (user "b1"); Some (user "c1")].
Proof.
  apply (getUsersFromAccounts_input_order [1; 0; 2]
           (abc_client (Resolved (body_of_users (Some [user "b1"]))))
           ["A"; "B"; "C"]
           (fun account =>
              if account =? "A" then [user "a1"; user "a2"]
              else if account =? "B" then [user "b1"]
              else [user "c1"])).
  - simpl. apply perm_swap.
  - intros account Hin.
    repeat (apply elem_of_cons in Hin as [->|Hin]; [reflexivity|]).
    inversion Hin.
Defined.

(** C8: when the fetch for one account of the list is rejected, the
    aggregate is rejected, with the error of a rejected fetch, for every
    order in which the fetches complete and whatever the other fetches
    yield; it is rejected with that very error when every other fetch is
    fulfilled. *)
Theorem getUsersFromAccounts_all_or_nothing order this accountList i account e :
  order ≡ₚ seq 0 (length accountList) ->
  accountList !! i = Some account ->
  outcome (getUsers this account plain_users) = Rejected e ->
  (exists failed e',
      failed ∈ accountList
      /\ outcome (getUsers this failed plain_users) = Rejected e'
      /\ outcome (getUsersFromAccounts order this accountList) = Rejected e')
  /\ ((forall other, other ∈ accountList -> other <> account ->
         exists v, outcome (getUsers this other plain_users) = Resolved v) ->
      outcome (getUsersFromAccounts order this accountList) = Rejected e).
Proof.
  intros Horder Hi He.
  assert (exists failed e',
             failed ∈ accountList
             /\ outcome (getUsers this failed plain_users) = Rejected e'
             /\ outcome (getUsersFromAccounts order this accountList) = Rejected e')
    as Hrej.
  { rewrite outcome_getUsersFromAccounts.
    destruct (Promise_all_settle_rejected
                ((fun a => outcome (getUsers this a plain_users)) <$> accountList) i e)
      with (order := order) (values := replicate (length accountList) (@None (option (list AIMSUser))))
      as (j & e' & Hj & Hsettle).
    - rewrite list_lookup_fmap, Hi. simpl. rewrite He. reflexivity.
    - rewrite Horder. apply elem_of_seq. apply lookup_lt_Some in Hi. lia.
    - rewrite list_lookup_fmap in Hj.
      destruct (accountList !! j) as [failed|] eqn:Hf; [|discriminate Hj].
      simpl in Hj. injection Hj as Hj.
      exists failed, e'. split; [eapply list_elem_of_lookup_2; exact Hf|].
      split; [exact Hj|]. rewrite Hsettle. reflexivity. }
  split; [exact Hrej|].
  intros Hothers. destruct Hrej as (failed & e' & Hin & Hf & Hout).
  destruct (decide (failed = account)) as [->|Hne]; [congruence|].
  destruct (Hothers failed Hin Hne) as [v Hv]. congruence.
Qed.

Lemma getUsersFromAccounts_all_or_nothing_witness :
  outcome (getUsersFromAccounts [2; 0; 1] (abc_client (Rejected unavailable))
             ["A"; "B"; "C"])
  = Rejected unavailable.
Proof.
  apply (getUsersFromAccounts_all_or_nothing [2; 0; 1] (abc_client (Rejected unavailable))
           ["A"; "B"; "C"] 1 "B" unavailable).
  - simpl. etransitivity; [apply perm_swap|]. apply perm_skip, perm_swap.
  - reflexivity.
  - reflexivity.
  - intros other Hin Hne.
    apply elem_of_cons in Hin as [->|Hin]; [eexists; reflexivity|].
    apply elem_of_cons in Hin as [->|Hin]; [congruence|].
    apply elem_of_cons in Hin as [->|Hin]; [eexists; reflexivity|].
    inversion Hin.
Defined.

(** * Further properties *)

(** ** [getIds] on object graphs *)

Lemma reaches_next store relationship r c :
  r = c \/ reaches store relationship r c ->
  reaches store relationship c c ->
  exists o c',
    store !! r = Some o
    /\ c' ∈ object_children relationship o
    /\ (c' = c \/ reaches store relationship c' c).
Proof.
  intros [->|Hrc] Hcc.
  - inversion Hcc as [r o c' Hlook Hin | r o c' d Hlook Hin Hbelow]; subst; eauto 6.
  - inversion Hrc as [r' o c' Hlook Hin | r' o c' d Hlook Hin Hbelow]; subst; eauto 6.
Qed.

(** X1: when a cycle of the [relationship] arrays can be reached from one of
    the objects to flatten, [getIds] does not return, however deep the
    stack: it throws. *)
Theorem getIds_graph_cycle_throws store relationship c :
  reaches store relationship c c ->
  forall stack refs r,
    r ∈ refs ->
    r = c \/ reaches store relationship r c ->
    exists e, getIds_graph stack store relationship refs = Throw e.
Proof.
  intros Hcc stack.
  induction stack as [|stack IH]; intros refs r Hin Hr; [eexists; reflexivity|].
  destruct (reaches_next _ _ _ _ Hr Hcc) as (o & c' & Hlook & Hc' & Hnext).
  induction refs as [|x refs IHrefs]; [inversion Hin|].
  rewrite getIds_graph_cons.
  destruct (decide (x = r)) as [->|Hne].
  - rewrite Hlook. destruct (IH _ c' Hc' Hnext) as [e ->]. eexists; reflexivity.
  - assert (r ∈ refs) as Hin' by (apply elem_of_cons in Hin as [?|?]; congruence).
    destruct (IHrefs Hin') as [e ->].
    destruct (store !! x) as [ox|]; [|eexists; reflexivity].
    destruct (getIds_graph stack store relationship (object_children relationship ox));
      eexists; reflexivity.
Qed.

Lemma getIds_graph_cycle_throws_witness :
  exists e, getIds_graph 1000 store_loop managed [0] = Throw e.
Proof.
  apply (getIds_graph_cycle_throws store_loop managed 1) with (r := 0).
  - eapply reaches_below; [reflexivity | left |].
    eapply reaches_child; [reflexivity | left].
  - left.
  - right. eapply reaches_child; [reflexivity | left].
Defined.

Lemma flatMap_cons_inv {A B : Type} (callback : A -> completion (list B)) a rest ids :
  flatMap callback (a :: rest) = Return ids ->
  exists mapped others,
    callback a = Return mapped
    /\ flatMap callback rest = Return others
    /\ ids = mapped ++ others.
Proof.
  simpl. destruct (callback a) as [mapped|]; simpl; [|discriminate].
  destruct (flatMap callback rest) as [others|]; simpl; [|discriminate].
  intros H. injection H as <-. eauto.
Qed.

Lemma children_of_node_along relationship id children :
  children_of relationship (node_along relationship id children) = children.
Proof. destruct relationship; reflexivity. Qed.

Lemma topology_id_node_along relationship id children :
  topology_id (node_along relationship id children) = id.
Proof. destruct relationship; reflexivity. Qed.

Lemma getIds_graph_unfolds stack store relationship :
  forall refs ids,
    getIds_graph stack store relationship refs = Return ids ->
    exists accounts,
      Forall2 (represents store relationship) refs accounts
      /\ forest_height relationship accounts < stack
      /\ ids = getIds relationship accounts.
Proof.
  induction stack as [|stack IH]; intros refs ids H; [discriminate H|].
  revert ids H. induction refs as [|r refs IHrefs]; intros ids H.
  - injection H as <-. exists [].
    split; [constructor | split; [unfold forest_height; simpl; lia | reflexivity]].
  - change (getIds_graph (S stack) store relationship (r :: refs))
      with (flatMap
              (fun a =>
                 match store !! a with
                 | None => Throw (TypeError "Cannot read properties of undefined (reading 'id')")
                 | Some o =>
                     ids <-- getIds_graph stack store relationship
                               (object_children relationship o) ;
                     Return (object_id o :: ids)
                 end) (r :: refs)) in H.
    apply flatMap_cons_inv in H as (mapped & others & Hr & Hrest & ->).
    destruct (store !! r) as [o|] eqn:Hlook; [|discriminate Hr].
    destruct (getIds_graph stack store relationship (object_children relationship o))
      as [below|] eqn:Hbelow; [|discriminate Hr].
    simpl in Hr. injection Hr as <-.
    destruct (IH _ _ Hbelow) as (children & Hch & Hh & ->).
    destruct (IHrefs _ Hrest) as (siblings & Hsib & Hhs & ->).
    exists (node_along relationship (object_id o) children :: siblings).
    split; [|split].
    + constructor; [|exact Hsib].
      eapply represents_node; [exact Hlook | |].
      * rewrite topology_id_node_along. reflexivity.
      * rewrite children_of_node_along. exact Hch.
    + rewrite forest_height_cons, topology_height_eq, children_of_node_along. lia.
    + rewrite getIds_cons, topology_id_node_along, children_of_node_along. reflexivity.
Qed.

(** X2: whenever [getIds] returns on an object graph, the objects reached
    unfold into a finite forest less high than the stack, and what is
    returned is the pre-order flattening of that forest; an object held by
    several arrays is flattened once for each of them. *)
Theorem getIds_graph_returns_unfolding stack store relationship refs ids :
  getIds_graph stack store relationship refs = Return ids ->
  exists accounts,
    Forall2 (represents store relationship) refs accounts
    /\ forest_height relationship accounts < stack
    /\ ids = getIds relationship accounts.
Proof. apply getIds_graph_unfolds. Qed.

Lemma getIds_graph_returns_unfolding_witness :
  exists accounts,
    Forall2 (represents store_shared managed) [0] accounts
    /\ forest_height managed accounts < 4
    /\ ["A"; "B"; "X"; "C"; "X"] = getIds managed accounts.
Proof.
  exact (getIds_graph_returns_unfolding 4 store_shared managed [0]
           ["A"; "B"; "X"; "C"; "X"] eq_refl).
Defined.

(** X3: a result that [getIds] returns with some stack is returned
    unchanged with every deeper stack. *)
Theorem getIds_graph_stack_monotone stack stack' store relationship refs ids :
  getIds_graph stack store relationship refs = Return ids ->
  stack <= stack' ->
  getIds_graph stack' store relationship refs = Return ids.
Proof.
  intros H Hle.
  destruct (getIds_graph_unfolds _ _ _ _ _ H) as (accounts & Hrep & Hh & ->).
  apply getIds_graph_represents; [exact Hrep | lia].
Qed.

Lemma getIds_graph_stack_monotone_witness :
  getIds_graph 50 store_shared managed [0] = Return ["A"; "B"; "X"; "C"; "X"].
Proof.
  apply (getIds_graph_stack_monotone 4 50 store_shared managed [0]);
    [reflexivity | lia].
Defined.

(** ** [getAccountsIdsByRelationship], whatever the fetch yields *)

(** X4: [getAccountsIdsByRelationship] issues exactly one request, the
    topology request without query parameters, whatever comes back; a
    rejection of that request is passed on unchanged, and while it does not
    settle neither does the call. *)
Theorem getAccountsIdsByRelationship_single_request
  this accountId relationship addCurrentId :
  trace (getAccountsIdsByRelationship this accountId relationship addCurrentId)
  = [Requested (topology_request this accountId relationship None)]
  /\ (forall e,
         get (client this) (topology_request this accountId relationship None)
         = Rejected e ->
         outcome (getAccountsIdsByRelationship this accountId relationship addCurrentId)
         = Rejected e)
  /\ (get (client this) (topology_request this accountId relationship None) = Pending ->
      outcome (getAccountsIdsByRelationship this accountId relationship addCurrentId)
      = Pending).
Proof.
  unfold getAccountsIdsByRelationship, getAccountRelationshipTopology, await, client_get,
    outcome, trace; simpl.
  destruct (get (client this) (topology_request this accountId relationship None))
    as [body|e'|]; simpl.
  - split; [|split; discriminate].
    destruct (topology body) as [t|]; [|reflexivity].
    destruct (topology_axis relationship t); reflexivity.
  - split; [reflexivity|]. split; [congruence | discriminate].
  - split; [reflexivity|]. split; [discriminate | reflexivity].
Qed.

Lemma getAccountsIdsByRelationship_single_request_witness :
  outcome (getAccountsIdsByRelationship unreachable_client "100" managing None)
  = Rejected unavailable.
Proof.
  exact (proj1 (proj2 (getAccountsIdsByRelationship_single_request
                         unreachable_client "100" managing None))
           unavailable eq_refl).
Defined.

(** X5: [addCurrentId] changes nothing but the first element: the call with
    [addCurrentId] true settles as the call with false does, a fulfilled
    result being preceded by [accountId]; leaving the flag out is the same
    as passing true. *)
Theorem addCurrentId_only_prefixes this accountId relationship :
  outcome (getAccountsIdsByRelationship this accountId relationship (Some true))
  = promise_bind
      (outcome (getAccountsIdsByRelationship this accountId relationship (Some false)))
      (fun ids => Resolved (accountId :: ids))
  /\ getAccountsIdsByRelationship this accountId relationship None
     = getAccountsIdsByRelationship this accountId relationship (Some true).
Proof.
  split; [|reflexivity].
  unfold getAccountsIdsByRelationship.
  rewrite !outcome_await.
  destruct (outcome (getAccountRelationshipTopology this accountId relationship None))
    as [[t|]| |]; simpl; try reflexivity.
  destruct (topology_axis relationship t); reflexivity.
Qed.

(** ** [startEndpointsSession] *)

(** X6: [startEndpointsSession] is fulfilled only with the cookie that a
    fulfilled body holds; a fulfilled body without a [cookie] is rejected
    with the validation error; a rejected request is passed on
    unchanged. *)
Theorem startEndpointsSession_validates fetched :
  (forall c,
      startEndpointsSession fetched = Resolved c ->
      exists body, fetched = Resolved body /\ cookie body = Some c)
  /\ (forall body c,
         fetched = Resolved body -> cookie body = Some c ->
         startEndpointsSession fetched = Resolved c)
  /\ (forall body,
         fetched = Resolved body -> cookie body = None ->
         startEndpointsSession fetched
         = Rejected (AlResponseValidationError
                       "Unexpected response format: no 'cookie' property present."))
  /\ (forall e, fetched = Rejected e -> startEndpointsSession fetched = Rejected e).
Proof.
  unfold startEndpointsSession. split; [|split; [|split]].
  - intros c H. destruct fetched as [body| |]; simpl in H; try discriminate H.
    destruct (cookie body) as [c'|] eqn:Hc; [|discriminate H].
    injection H as <-. eauto.
  - intros body c -> Hc. simpl. rewrite Hc. reflexivity.
  - intros body -> Hc. simpl. rewrite Hc. reflexivity.
  - intros e ->. reflexivity.
Qed.

Lemma startEndpointsSession_validates_witness :
  startEndpointsSession (Resolved {| cookie := Some "s3ss10n" |}) = Resolved "s3ss10n"
  /\ startEndpointsSession (Resolved {| cookie := None |})
     = Rejected (AlResponseValidationError
                   "Unexpected response format: no 'cookie' property present.")
  /\ startEndpointsSession (Rejected unavailable) = Rejected unavailable.
Proof.
  split; [|split].
  - exact (proj1 (proj2 (startEndpointsSession_validates _))
             {| cookie := Some "s3ss10n" |} "s3ss10n" eq_refl eq_refl).
  - exact (proj1 (proj2 (proj2 (startEndpointsSession_validates _)))
             {| cookie := None |} eq_refl eq_refl).
  - exact (proj2 (proj2 (proj2 (startEndpointsSession_validates _))) unavailable eq_refl).
Defined.

(** ** [getUsersFromManagedRelationship], level by level *)

(** How one level settles, from how its two requests and its ascent
    settle. *)
Lemma walker_outcome fuel this leaf terminal foe :
  outcome (getUsersFromManagedRelationship (S fuel) this leaf terminal foe)
  = match outcome (getUsers this leaf plain_users) with
    | Resolved users_ =>
        let caught e := if default true foe then Rejected e else Resolved users_ in
        match outcome (getAccountsByRelationship this leaf "managing" None) with
        | Resolved (Some managing_) =>
            match sort by_id_descending managing_ with
            | [] => Resolved users_
            | first :: _ =>
                match outcome (getUsersFromManagedRelationship fuel this
                                 (AIMSAccount_id first) terminal None) with
                | Resolved (Some parentUsers) =>
                    match users_ with
                    | Some own => Resolved (Some (own ++ parentUsers))
                    | None =>
                        caught (TypeError
                                  "Cannot read properties of undefined (reading 'concat')")
                    end
                | Resolved None => Resolved users_
                | Rejected e => caught e
                | Pending => Pending
                end
            end
        | Resolved None =>
            caught (TypeError "Cannot read properties of undefined (reading 'length')")
        | Rejected e => caught e
        | Pending => Pending
        end
    | Rejected e => Rejected e
    | Pending => Pending
    end.
Proof.
  destruct (outcome (getUsers this leaf plain_users)) as [users_|e|] eqn:Hu.
  2:{ rewrite (walker_users_rejected _ _ _ _ _ _ Hu). reflexivity. }
  2:{ simpl. rewrite getUsers_trace, Hu. reflexivity. }
  destruct (outcome (getAccountsByRelationship this leaf "managing" None))
    as [[managing_|]|e|] eqn:Hm.
  - destruct (sort by_id_descending managing_) as [|first rest] eqn:Hsort.
    + apply sort_nil_inv in Hsort as ->. run_level Hu Hm. reflexivity.
    + rewrite (walker_ascent _ _ _ _ _ _ _ _ _ Hu Hm Hsort). simpl.
      destruct (outcome (getUsersFromManagedRelationship fuel this
                           (AIMSAccount_id first) terminal None)) as [[pu|]|e|];
        destruct users_; destruct (default true foe); reflexivity.
  - run_level Hu Hm. destruct (default true foe); reflexivity.
  - rewrite (walker_query_rejected _ _ _ _ _ _ _ Hu Hm).
    destruct (default true foe); reflexivity.
  - run_level Hu Hm. reflexivity.
Qed.



(** X8: the terminal account id is passed along and never looked at: the
    call settles in the same way for any two of them, and the ascent goes
    on above the terminal account. *)
Theorem terminalAccountId_is_ignored fuel this :
  forall leaf terminal terminal' foe,
    outcome (getUsersFromManagedRelationship fuel this leaf terminal foe)
    = outcome (getUsersFromManagedRelationship fuel this leaf terminal' foe).
Proof.
  induction fuel as [|fuel IH]; intros leaf terminal terminal' foe; [reflexivity|].
  rewrite !walker_outcome.
  destruct (outcome (getUsers this leaf plain_users)) as [users_|e|]; try reflexivity.
  destruct (outcome (getAccountsByRelationship this leaf "managing" None))
    as [[managing_|]|e|]; try reflexivity.
  destruct (sort by_id_descending managing_) as [|first rest]; [reflexivity|].
  rewrite (IH (AIMSAccount_id first) terminal terminal' None). reflexivity.
Qed.

(** X9: with [failOnError] false, once the leaf's own users are fetched
    the call is never rejected: it resolves with the own users alone, or
    with the own users followed by what the ascent yielded, or it does not
    settle. *)
Theorem tolerant_call_never_rejects fuel this leaf terminal users_ :
  outcome (getUsers this leaf plain_users) = Resolved users_ ->
  let call := outcome (getUsersFromManagedRelationship fuel this leaf terminal
                         (Some false)) in
  call = Pending
  \/ call = Resolved users_
  \/ exists own parentUsers,
       users_ = Some own /\ call = Resolved (Some (own ++ parentUsers)).
Proof.
  intros Hu call. subst call.
  destruct fuel as [|fuel]; [left; reflexivity|].
  rewrite walker_outcome, Hu. simpl.
  destruct (outcome (getAccountsByRelationship this leaf "managing" None))
    as [[managing_|]|e|]; auto.
  destruct (sort by_id_descending managing_) as [|first rest]; auto.
  destruct (outcome (getUsersFromManagedRelationship fuel this
                       (AIMSAccount_id first) terminal None)) as [[pu|]|e|]; auto.
  destruct users_ as [own|]; eauto 6.
Qed.

Lemma tolerant_call_never_rejects_witness :
  let call := outcome (getUsersFromManagedRelationship 3
                         (hierarchy_client (Rejected unavailable)) "5" None (Some false)) in
  call = Pending
  \/ call = Resolved (Some [user "u5a"; user "u5b"])
  \/ exists own parentUsers,
       Some [user "u5a"; user "u5b"] = Some own
       /\ call = Resolved (Some (own ++ parentUsers)).
Proof.
  exact (tolerant_call_never_rejects 3 (hierarchy_client (Rejected unavailable)) "5" None
           (Some [user "u5a"; user "u5b"]) eq_refl).
Defined.





(** X12: when the [managing] query is fulfilled with a body that has no
    [accounts] array, reading its length throws inside the [try] block:
    with [failOnError] true, or left out, the call is rejected with the
    [TypeError]; with false it resolves with the leaf's own users.  No
    ascent is attempted. *)
Theorem managing_body_without_accounts fuel this leaf terminal foe users_ :
  outcome (getUsers this leaf plain_users) = Resolved users_ ->
  outcome (getAccountsByRelationship this leaf "managing" None) = Resolved None ->
  outcome (getUsersFromManagedRelationship (S fuel) this leaf terminal foe)
  = (if default true foe
     then Rejected (TypeError "Cannot read properties of undefined (reading 'length')")
     else Resolved users_)
  /\ entries (trace (getUsersFromManagedRelationship (S fuel) this leaf terminal foe))
     = [(leaf, terminal, default true foe)].
Proof.
  intros Hu Hm. run_level Hu Hm.
  destruct (default true foe); split; reflexivity.
Qed.

Lemma managing_body_without_accounts_witness :
  let this := parent_client (Resolved (body_of_accounts None)) (Rejected unavailable) in
  outcome (getUsersFromManagedRelationship 1 this "5" None None)
  = Rejected (TypeError "Cannot read properties of undefined (reading 'length')")
  /\ outcome (getUsersFromManagedRelationship 1 this "5" None (Some false))
     = Resolved (Some [user "u5a"; user "u5b"]).
Proof.
  intros this. split.
  - exact (proj1 (managing_body_without_accounts 0 this "5" None None
                    (Some [user "u5a"; user "u5b"]) eq_refl eq_refl)).
  - exact (proj1 (managing_body_without_accounts 0 this "5" None (Some false)
                    (Some [user "u5a"; user "u5b"]) eq_refl eq_refl)).
Defined.

(** ** The order of the candidates *)

Lemma sort_insert_Permutation {A : Type} (comparefn : A -> A -> option Z) x sorted :
  sort_insert comparefn x sorted ≡ₚ x :: sorted.
Proof.
  induction sorted as [|y rest IH]; simpl; [reflexivity|].
  destruct (comes_before (comparefn y x)); [|reflexivity].
  rewrite IH. apply perm_swap.
Qed.

Lemma sort_Permutation {A : Type} (comparefn : A -> A -> option Z) array :
  sort comparefn array ≡ₚ array.
Proof.
  induction array as [|x array IH]; [reflexivity|].
  change (sort comparefn (x :: array))
    with (sort_insert comparefn x (sort comparefn array)).
  rewrite sort_insert_Permutation, IH. reflexivity.
Qed.

Lemma comes_before_numbers y x ny nx :
  number_of y = Some ny -> number_of x = Some nx ->
  comes_before (by_id_descending y x) = (nx <? ny)%Z.
Proof.
  unfold number_of, by_id_descending. intros -> ->. simpl.
  destruct (nx - ny <? 0)%Z eqn:H1, (nx <? ny)%Z eqn:H2; try reflexivity.
  - apply Z.ltb_lt in H1. apply Z.ltb_ge in H2. lia.
  - apply Z.ltb_ge in H1. apply Z.ltb_lt in H2. lia.
Qed.

Lemma sort_insert_descending x sorted :
  is_Some (number_of x) ->
  (forall c, c ∈ sorted -> is_Some (number_of c)) ->
  descending sorted ->
  descending (sort_insert by_id_descending x sorted).
Proof.
  intros [nx Hx].
  induction sorted as [|y rest IH]; intros Hnum Hdesc; simpl.
  - split; [intros c' n n' Hin; inversion Hin | exact I].
  - destruct (Hnum y) as [ny Hy]; [left|].
    destruct Hdesc as [Hy_first Hrest].
    rewrite (comes_before_numbers y x ny nx Hy Hx).
    destruct (nx <? ny)%Z eqn:Hcmp.
    + apply Z.ltb_lt in Hcmp. split.
      * intros c' n n' Hin Hn Hn'.
        apply (elem_of_Permutation_proper _ _ _ (sort_insert_Permutation _ x rest)) in Hin.
        apply elem_of_cons in Hin as [->|Hin].
        -- rewrite Hy in Hn. rewrite Hx in Hn'. injection Hn as <-. injection Hn' as <-. lia.
        -- eapply Hy_first; eassumption.
      * apply IH; [intros c Hc; apply Hnum; right; exact Hc | exact Hrest].
    + apply Z.ltb_ge in Hcmp. split; [|split; assumption].
      intros c' n n' Hin Hn Hn'. rewrite Hx in Hn. injection Hn as <-.
      apply elem_of_cons in Hin as [->|Hin].
      * rewrite Hy in Hn'. injection Hn' as <-. lia.
      * specialize (Hy_first c' ny n' Hin Hy Hn'). lia.
Qed.

Lemma sort_descending_numbers (managing_ : list AIMSAccount) :
  (forall c, c ∈ managing_ -> is_Some (number_of c)) ->
  descending (sort by_id_descending managing_).
Proof.
  induction managing_ as [|x l IH]; intros Hnum; [exact I|].
  change (sort by_id_descending (x :: l))
    with (sort_insert by_id_descending x (sort by_id_descending l)).
  apply sort_insert_descending.
  - apply Hnum. left.
  - intros c Hc. apply Hnum. right.
    apply (elem_of_Permutation_proper _ _ _ (sort_Permutation by_id_descending l)).
    exact Hc.
  - apply IH. intros c Hc. apply Hnum. right. exact Hc.
Qed.

(** X13: the sort keeps every candidate, each as often as it was listed,
    and with ids that are numbers within the safe integers it leaves the
    candidates in non-increasing order of their numbers. *)
Theorem candidates_sorted_descending (managing_ : list AIMSAccount) :
  sort by_id_descending managing_ ≡ₚ managing_
  /\ ((forall c, c ∈ managing_ -> safe_id c) ->
      descending (sort by_id_descending managing_)).
Proof.
  split; [apply sort_Permutation|].
  intros Hsafe. apply sort_descending_numbers.
  intros c Hc. apply safe_id_number, Hsafe, Hc.
Qed.

Lemma candidates_sorted_descending_witness :
  descending (sort by_id_descending [account "7"; account "3"; account "9"]).
Proof.
  apply (proj2 (candidates_sorted_descending [account "7"; account "3"; account "9"])).
  intros c Hc.
  repeat (apply elem_of_cons in Hc as [->|Hc];
          [eexists; split; [reflexivity | vm_compute; split; reflexivity]|]).
  inversion Hc.
Defined.

Lemma first_greatest_numbers (managing_ : list AIMSAccount) :
  managing_ <> [] ->
  (forall c, c ∈ managing_ -> is_Some (number_of c)) ->
  exists before chosen after n,
    managing_ = before ++ chosen :: after
    /\ head (sort by_id_descending managing_) = Some chosen
    /\ number_of chosen = Some n
    /\ (forall c m, c ∈ before -> number_of c = Some m -> (m < n)%Z)
    /\ (forall c m, c ∈ after -> number_of c = Some m -> (m <= n)%Z).
Proof.
  induction managing_ as [|x l IH]; intros Hne Hnum; [congruence|].
  destruct (Hnum x) as [nx Hx]; [left|].
  destruct l as [|y l'].
  - exists [], x, [], nx. repeat split; try assumption; intros c m Hc; inversion Hc.
  - destruct IH as (before & chosen & after & n & Hl & Hhead & Hn & Hbefore & Hafter);
      [discriminate | intros c Hc; apply Hnum; right; exact Hc |].
    change (sort by_id_descending (x :: y :: l'))
      with (sort_insert by_id_descending x (sort by_id_descending (y :: l'))).
    destruct (sort by_id_descending (y :: l')) as [|first rest] eqn:Hsort;
      [discriminate Hhead|].
    injection Hhead as ->. simpl.
    rewrite (comes_before_numbers chosen x n nx Hn Hx).
    destruct (nx <? n)%Z eqn:Hcmp.
    + apply Z.ltb_lt in Hcmp.
      exists (x :: before), chosen, after, n. rewrite Hl.
      repeat split; try assumption.
      intros c m Hc Hm. apply elem_of_cons in Hc as [->|Hc].
      * rewrite Hx in Hm. injection Hm as <-. exact Hcmp.
      * eapply Hbefore; eassumption.
    + apply Z.ltb_ge in Hcmp.
      exists [], x, (y :: l'), nx.
      repeat split; try assumption; [intros c m Hc; inversion Hc|].
      intros c m Hc Hm. rewrite Hl in Hc.
      apply elem_of_app in Hc as [Hc|Hc].
      * specialize (Hbefore c m Hc Hm). lia.
      * apply elem_of_cons in Hc as [->|Hc].
        -- rewrite Hn in Hm. injection Hm as <-. lia.
        -- specialize (Hafter c m Hc Hm). lia.
Qed.

(** X14: among candidates carrying the same greatest number, within the
    safe integers, the one listed first is ascended into: every candidate
    listed before the chosen one has a smaller number, and none listed
    after it has a greater one. *)
Theorem first_of_the_greatest_is_chosen (managing_ : list AIMSAccount) :
  managing_ <> [] ->
  (forall c, c ∈ managing_ -> safe_id c) ->
  exists before chosen after n,
    managing_ = before ++ chosen :: after
    /\ head (sort by_id_descending managing_) = Some chosen
    /\ number_of chosen = Some n
    /\ (forall c m, c ∈ before -> number_of c = Some m -> (m < n)%Z)
    /\ (forall c m, c ∈ after -> number_of c = Some m -> (m <= n)%Z).
Proof.
  intros Hne Hsafe. apply first_greatest_numbers; [exact Hne|].
  intros c Hc. apply safe_id_number, Hsafe, Hc.
Qed.

Lemma first_of_the_greatest_is_chosen_witness :
  head (sort by_id_descending [account "3"; account "9"; account "09"; account "9 "])
  = Some (account "9").
Proof.
  destruct (first_of_the_greatest_is_chosen
              [account "3"; account "9"; account "09"; account "9 "])
    as (before & chosen & after & n & _ & Hhead & _).
  - discriminate.
  - intros c Hc.
    repeat (apply elem_of_cons in Hc as [->|Hc];
            [eexists; split; [reflexivity | vm_compute; split; reflexivity]|]).
    inversion Hc.
  - rewrite Hhead. vm_compute in Hhead. injection Hhead as <-. reflexivity.
Defined.

(** ** [getUsersFromAccounts], whatever the fetches yield *)

Section promise_all_more.
Context {A : Type}.
Implicit Types (promises : list (promise A)) (values : list (option A)).

Lemma all_fulfilled_hole values i :
  values !! i = Some None -> all_fulfilled values = None.
Proof.
  revert i. induction values as [|v values IH]; intros i Hi; [inversion Hi|].
  destruct i as [|i]; simpl in Hi.
  - injection Hi as ->. reflexivity.
  - simpl. destruct v; [|reflexivity]. rewrite (IH i Hi). reflexivity.
Qed.

(** An input that never settles, no input being rejected: the whole never
    settles. *)
Lemma Promise_all_settle_pending promises i :
  promises !! i = Some Pending ->
  (forall j e, promises !! j <> Some (Rejected e)) ->
  forall order values,
    values !! i = Some None ->
    Promise_all_settle order promises values = Pending.
Proof.
  intros Hi Hnone. induction order as [|j order IH]; intros values Hv; simpl.
  - rewrite (all_fulfilled_hole values i Hv). reflexivity.
  - destruct (promises !! j) as [[v|e|]|] eqn:Hj.
    + apply IH. rewrite list_lookup_insert_ne; [exact Hv | congruence].
    + destruct (Hnone j e Hj).
    + apply IH, Hv.
    + apply IH, Hv.
Qed.

(** The first input to be rejected, in completion order, rejects the
    whole. *)
Lemma Promise_all_settle_first_rejected promises i e after :
  promises !! i = Some (Rejected e) ->
  forall before values,
    (forall j e', j ∈ before -> promises !! j <> Some (Rejected e')) ->
    Promise_all_settle (before ++ i :: after) promises values = Rejected e.
Proof.
  intros Hi. induction before as [|j before IH]; intros values Hbefore; simpl.
  - rewrite Hi. reflexivity.
  - destruct (promises !! j) as [[v|e'|]|] eqn:Hj.
    + apply IH. intros k e' Hk. apply Hbefore. right. exact Hk.
    + destruct (Hbefore j e' ltac:(left) Hj).
    + apply IH. intros k e' Hk. apply Hbefore. right. exact Hk.
    + apply IH. intros k e' Hk. apply Hbefore. right. exact Hk.
Qed.

Lemma Promise_all_settle_nil order :
  Promise_all_settle order (@nil (promise A)) [] = Resolved [].
Proof. induction order as [|j order IH]; [reflexivity | exact IH]. Qed.

Lemma flat_hole (before after : list (option (list A))) :
  flat (before ++ None :: after) = flat before ++ None :: flat after.
Proof. unfold flat. rewrite flat_map_app. reflexivity. Qed.

End promise_all_more.

Lemma trace_fetches this accountList :
  concat (map trace (map (fun account => getUsers this account plain_users) accountList))
  = map (fun account => Requested (users_request this account plain_users)) accountList.
Proof.
  induction accountList as [|account accountList IH]; [reflexivity|].
  simpl. rewrite IH, getUsers_trace. reflexivity.
Qed.

(** X15: [getUsersFromAccounts] issues one users request for each element
    of the list, in the order of the list, whatever the fetches yield and
    in whatever order they complete: a failing fetch stops no other. *)
Theorem getUsersFromAccounts_requests order this accountList :
  trace (getUsersFromAccounts order this accountList)
  = map (fun account => Requested (users_request this account plain_users)) accountList.
Proof.
  unfold getUsersFromAccounts, await.
  assert (trace (Promise_all order
                   (map (fun account => getUsers this account plain_users) accountList))
          = map (fun account => Requested (users_request this account plain_users))
              accountList) as Htrace by apply trace_fetches.
  destruct (outcome (Promise_all order _)); simpl; rewrite ?app_nil_r; exact Htrace.
Qed.

(** X16: for an empty list the call resolves with an empty array and
    issues no request. *)
Theorem getUsersFromAccounts_empty order this :
  getUsersFromAccounts order this [] = ([], Resolved []).
Proof.
  unfold getUsersFromAccounts, await, Promise_all, outcome, trace; simpl.
  rewrite Promise_all_settle_nil. reflexivity.
Qed.

(** X17: when every fetch is fulfilled, the aggregate is the flattening of
    what the bodies hold under [users], in the order of the list; a body
    without a [users] array leaves a single hole at its place and is no
    error. *)
Theorem getUsersFromAccounts_holes order this accountList
  (valueOf : string -> option (list AIMSUser)) :
  order ≡ₚ seq 0 (length accountList) ->
  (forall account, account ∈ accountList ->
     outcome (getUsers this account plain_users) = Resolved (valueOf account)) ->
  outcome (getUsersFromAccounts order this accountList)
  = Resolved (flat (map valueOf accountList))
  /\ forall before account after,
       accountList = before ++ account :: after ->
       valueOf account = None ->
       outcome (getUsersFromAccounts order this accountList)
       = Resolved (flat (map valueOf before) ++ None :: flat (map valueOf after)).
Proof.
  intros Horder Hfetch.
  assert (outcome (getUsersFromAccounts order this accountList)
          = Resolved (flat (map valueOf accountList))) as Hout.
  { rewrite outcome_getUsersFromAccounts.
    replace ((fun account => outcome (getUsers this account plain_users)) <$> accountList)
      with (Resolved <$> (valueOf <$> accountList)).
    - rewrite (Promise_all_settle_resolved (valueOf <$> accountList)); [reflexivity | |].
      + rewrite length_replicate, length_fmap. reflexivity.
      + intros i v Hv. right.
        apply lookup_lt_Some in Hv as Hlt. rewrite length_fmap in Hlt.
        split; [apply lookup_replicate_2; exact Hlt|].
        rewrite Horder. apply elem_of_seq. lia.
    - rewrite <- list_fmap_compose. apply Forall_fmap_ext_1.
      apply Forall_forall. intros account Hin. simpl. symmetry. apply Hfetch. exact Hin. }
  split; [exact Hout|].
  intros before account after -> Hnone.
  rewrite Hout, map_app. simpl. rewrite Hnone. rewrite flat_hole. reflexivity.
Qed.

Lemma getUsersFromAccounts_holes_witness :
  outcome (getUsersFromAccounts [2; 1; 0] (abc_client (Resolved (body_of_users None)))
             ["A"; "B"; "C"])
  = Resolved [Some (user "a1"); Some (user "a2"); None; Some (user "c1")].
Proof.
  refine (proj1 (getUsersFromAccounts_holes [2; 1; 0]
                   (abc_client (Resolved (body_of_users None))) ["A"; "B"; "C"]
                   (fun account =>
                      if account =? "A" then Some [user "a1"; user "a2"]
                      else if account =? "B" then None
                      else Some [user "c1"]) _ _)).
  - simpl. etransitivity; [apply perm_swap|].
    etransitivity; [apply perm_skip, perm_swap|]. apply perm_swap.
  - intros account Hin.
    repeat (apply elem_of_cons in Hin as [->|Hin]; [reflexivity|]).
    inversion Hin.
Defined.

(** X18: the aggregate is rejected with the error of the fetch that is
    rejected first in completion order, whatever its place in the list. *)
Theorem getUsersFromAccounts_first_rejection before i after this accountList account e :
  accountList !! i = Some account ->
  outcome (getUsers this account plain_users) = Rejected e ->
  (forall j earlier e',
      j ∈ before -> accountList !! j = Some earlier ->
      outcome (getUsers this earlier plain_users) <> Rejected e') ->
  outcome (getUsersFromAccounts (before ++ i :: after) this accountList) = Rejected e.
Proof.
  intros Hi He Hbefore.
  rewrite outcome_getUsersFromAccounts.
  rewrite (Promise_all_settle_first_rejected _ i e); [reflexivity | |].
  - rewrite list_lookup_fmap, Hi. simpl. rewrite He. reflexivity.
  - intros j e' Hj Hrej. rewrite list_lookup_fmap in Hrej.
    destruct (accountList !! j) as [earlier|] eqn:Hearlier; [|discriminate Hrej].
    simpl in Hrej. injection Hrej as Hrej.
    exact (Hbefore j earlier e' Hj Hearlier Hrej).
Qed.

Lemma getUsersFromAccounts_first_rejection_witness :
  let this := ab_client (Rejected not_found) (Rejected unavailable) in
  outcome (getUsersFromAccounts [2; 1; 0] this ["A"; "B"; "C"]) = Rejected unavailable
  /\ outcome (getUsersFromAccounts [2; 0; 1] this ["A"; "B"; "C"]) = Rejected not_found.
Proof.
  intros this. split.
  - apply (getUsersFromAccounts_first_rejection [2] 1 [0] this ["A"; "B"; "C"] "B");
      [reflexivity | reflexivity |].
    intros j earlier e' Hj Hearlier. apply list_elem_of_singleton in Hj as ->.
    injection Hearlier as <-. discriminate.
  - apply (getUsersFromAccounts_first_rejection [2] 0 [1] this ["A"; "B"; "C"] "A");
      [reflexivity | reflexivity |].
    intros j earlier e' Hj Hearlier. apply list_elem_of_singleton in Hj as ->.
    injection Hearlier as <-. discriminate.
Defined.

(** X19: when one fetch never settles and none is rejected, the aggregate
    never settles, in whatever order the other fetches complete: the users
    already fetched are not delivered. *)
Theorem getUsersFromAccounts_waits_for_all order this accountList i account :
  accountList !! i = Some account ->
  outcome (getUsers this account plain_users) = Pending ->
  (forall other e, other ∈ accountList ->
     outcome (getUsers this other plain_users) <> Rejected e) ->
  outcome (getUsersFromAccounts order this accountList) = Pending.
Proof.
  intros Hi Hpending Hnone.
  rewrite outcome_getUsersFromAccounts.
  rewrite (Promise_all_settle_pending _ i); [reflexivity | | |].
  - rewrite list_lookup_fmap, Hi. simpl. rewrite Hpending. reflexivity.
  - intros j e Hrej. rewrite list_lookup_fmap in Hrej.
    destruct (accountList !! j) as [other|] eqn:Hother; [|discriminate Hrej].
    simpl in Hrej. injection Hrej as Hrej.
    apply (Hnone other e); [eapply list_elem_of_lookup_2; exact Hother | exact Hrej].
  - apply lookup_replicate_2. apply lookup_lt_Some in Hi. exact Hi.
Qed.

Lemma getUsersFromAccounts_waits_for_all_witness :
  outcome (getUsersFromAccounts [0; 2; 1]
             (ab_client (Resolved (body_of_users (Some [user "a1"]))) Pending)
             ["A"; "B"; "C"])
  = Pending.
Proof.
  apply (getUsersFromAccounts_waits_for_all [0; 2; 1]
           (ab_client (Resolved (body_of_users (Some [user "a1"]))) Pending)
           ["A"; "B"; "C"] 1 "B"); [reflexivity | reflexivity |].
  intros other e Hin.
  repeat (apply elem_of_cons in Hin as [->|Hin]; [discriminate|]).
  inversion Hin.
Defined.

(** ** What [getIds] reads *)

(** X20: [getIds] reads nothing but the ids and the arrays of its own axis:
    topologies that agree on these flatten alike, whatever their other
    axis holds, and an absent array counts as an empty one. *)
Theorem getIds_reads_its_axis_only relationship accounts :
  forall accounts',
    Forall2 (same_along relationship) accounts accounts' ->
    getIds relationship accounts = getIds relationship accounts'.
Proof.
  induction accounts as [|a siblings IHc IHs] using (forest_ind relationship);
    intros accounts' Hsame.
  - inversion Hsame; subst. reflexivity.
  - inversion Hsame as [|a0 b l l' Hab Hrest]; subst.
    inversion Hab as [a0 b0 Hid Hch]; subst.
    rewrite !getIds_cons, Hid, (IHc _ Hch), (IHs _ Hrest). reflexivity.
Qed.

Lemma getIds_reads_its_axis_only_witness :
  getIds managed [tree_ABDC] = getIds managed [tree_ABDC_both].
Proof.
  apply getIds_reads_its_axis_only.
  repeat (constructor; try reflexivity).
Defined.

(** ** A leaf body without [users] *)


